(** * Watch-history aggregation: a shallow embedding of [main.py]

    The development follows the layout of the script: a prelude with the Python
    values and builtins the script relies on, the completion estimator
    ([_percent_from_row]), the availability resolver
    ([count_available_episodes], [compute_available_after]) and the two
    aggregators ([aggregate_series], [aggregate_movies]).

    Python floats are IEEE 754 binary64 numbers and are embedded as Rocq's
    primitive [float]; Python integers are [Z]; a decoded JSON object is a
    finite map from strings to values.  A call that may raise returns a
    [result]; the [try]/[except] blocks of the script are written out.  The
    dicts [series] and [movies] keep their insertion order, which the final
    stable sort can still show, and are association lists.  What the script
    gets from outside is a parameter: the interpreter's text conversions and
    the clock ([runtime]), and the API behind [call_api]. *)

From Stdlib Require Import ZArith Ascii String Floats DecimalString Sorted Lia.
From stdpp Require Import gmap strings list pretty.

Set Warnings "-register-all,-inexact-float,-clear-no-such-hyp".
Local Open Scope Z_scope.

(* ===================================================================== *)
(** ** Python prelude                                                     *)
(* ===================================================================== *)

(** Outcome of a computation that may raise.  Every exception the script can
    meet is caught by an [except Exception] clause or aborts the whole call,
    so the embedding keeps a single [Raise]. *)
Inductive result (A : Type) : Type :=
| Ok (a : A)
| Raise.
Arguments Ok {A} a.
Arguments Raise {A}.

#[global] Instance result_bind : MBind result :=
  fun A B (k : A -> result B) (m : result A) =>
    match m with
    | Ok a => k a
    | Raise => Raise
    end.

Definition of_option {A} (o : option A) : result A :=
  match o with
  | Some a => Ok a
  | None => Raise
  end.

(** [try: m  except Exception: h] *)
Definition try_except {A} (m : result A) (h : result A) : result A :=
  match m with
  | Ok a => Ok a
  | Raise => h
  end.

Fixpoint mapM {A B} (f : A -> result B) (l : list A) : result (list B) :=
  match l with
  | [] => Ok []
  | x :: l' => y ← f x; ys ← mapM f l'; Ok (y :: ys)
  end.

(** Values as [json] decoding produces them. *)
Inductive value : Type :=
| VNone
| VBool (b : bool)
| VInt (z : Z)
| VFloat (f : float)
| VStr (s : string)
| VList (l : list value)
| VDict (d : gmap string value).

(** A history row, a metadata answer: [Dict[str, Any]]. *)
Abbreviation row := (gmap string value).

(** [d.get(k)]: the value, or [None] when the key is missing. *)
Definition dict_get (d : row) (k : string) : value :=
  match d !! k with
  | Some v => v
  | None => VNone
  end.

Definition str_nonempty (s : string) : bool :=
  match s with
  | EmptyString => false
  | String _ _ => true
  end.

(** Truth value of an object. *)
Definition truthy (v : value) : bool :=
  match v with
  | VNone => false
  | VBool b => b
  | VInt z => negb (z =? 0)
  | VFloat f => negb (f =? 0)%float
  | VStr s => str_nonempty s
  | VList l => match l with [] => false | _ => true end
  | VDict d => negb (bool_decide (d = ∅))
  end.

(** [a or b] *)
Definition py_or (a b : value) : value := if truthy a then a else b.

(** [float(n)] for an integer [n], rounded to nearest even; the result is
    infinite exactly when Python raises [OverflowError]. *)
Definition float_of_Z (z : Z) : float :=
  SF2Prim (binary_normalize prec emax z 0 false).

(** [int(x)] for a float [x]: truncation; raises on NaN and infinities. *)
Definition float_trunc (f : float) : option Z :=
  match Prim2SF f with
  | S754_zero _ => Some 0
  | S754_finite s m e =>
      let a := if (0 <=? e) then Z.pos m * 2 ^ e else Z.pos m / 2 ^ (- e) in
      Some (if s then - a else a)
  | S754_infinity _ | S754_nan => None
  end.

(** [min(a, b)] and [max(a, b)] keep the first argument unless the second
    one compares strictly smaller (larger). *)
Definition py_min (a b : float) : float := if (b <? a)%float then b else a.
Definition py_max (a b : float) : float := if (a <? b)%float then b else a.

(** Nearest integer to [a / d] for [d > 0], ties to even. *)
Definition div_half_even (a d : Z) : Z :=
  let q := a / d in
  match (2 * (a mod d)) ?= d with
  | Lt => q
  | Gt => q + 1
  | Eq => if Z.even q then q else q + 1
  end.

(** [round(x, 2)]: the double nearest to the decimal obtained by rounding the
    exact value of [x] to two places, ties to even; the sign of [x] is kept.
    Above 2^53 / 100 a double is its own rounding. *)
Definition round2 (x : float) : float :=
  match Prim2SF x with
  | S754_finite s m e =>
      if (0 <=? e) then x
      else
        let n := div_half_even (Z.pos m * 100) (2 ^ (- e)) in
        if (n <? 2 ^ 53) then
          let r := (float_of_Z n / 100)%float in
          if s then (- r)%float else r
        else x
  | _ => x
  end.

(** What the script takes from the interpreter and the C library: parsing of
    text as numbers, [repr] of floats and containers, the local-time
    formatting of a timestamp, and Unicode lower-casing. *)
Record runtime : Type := {
  float_of_str : string -> option float;   (* float(s); None: ValueError *)
  int_of_str : string -> option Z;         (* int(s);   None: ValueError *)
  repr_other : value -> string;            (* str(v) for floats, lists, dicts *)
  strftime_local : Z -> option string;     (* strftime(fmt, localtime(t)) *)
  str_lower : string -> string             (* s.lower() *)
}.

Section Prelude.
Context (py : runtime).

(** [float(v)]; [None] when it raises. *)
Definition to_float (v : value) : option float :=
  match v with
  | VNone => None
  | VBool b => Some (if b then 1 else 0)%float
  | VInt z =>
      let f := float_of_Z z in
      if is_infinity f then None else Some f
  | VFloat f => Some f
  | VStr s => float_of_str py s
  | VList _ | VDict _ => None
  end.

(** [int(v)]; [None] when it raises. *)
Definition to_int (v : value) : option Z :=
  match v with
  | VNone => None
  | VBool b => Some (if b then 1 else 0)
  | VInt z => Some z
  | VFloat f => float_trunc f
  | VStr s => int_of_str py s
  | VList _ | VDict _ => None
  end.

(** [str(v)] *)
Definition py_str (v : value) : string :=
  match v with
  | VNone => "None"
  | VBool b => if b then "True" else "False"
  | VInt z => pretty z
  | VStr s => s
  | VFloat _ | VList _ | VDict _ => repr_other py v
  end.

(** [_ts_readable] *)
Definition _ts_readable (ts : value) : string :=
  let formatted (t : option Z) : string :=
    match t with
    | Some z => match strftime_local py z with Some s => s | None => "" end
    | None => ""
    end in
  match ts with
  | VBool b => formatted (Some (if b then 1 else 0))
  | VInt z => formatted (Some z)
  | VFloat f => formatted (float_trunc f)
  | _ => if truthy ts then py_str ts else ""
  end.

(* =================================================================== *)
(** ** Completion estimator                                             *)
(* =================================================================== *)

(** The explicit field, when present and convertible. *)
Definition explicit_percent (r : row) : option float :=
  match dict_get r "percent_complete" with
  | VNone => None
  | pc => to_float pc
  end.

(** The duration the estimator works with:
    [r.get("duration") or r.get("media_duration")]. *)
Definition resolved_duration (r : row) : value :=
  py_or (dict_get r "duration") (dict_get r "media_duration").

(** The position/duration branch of [_percent_from_row]. *)
Definition percent_from_offsets (r : row) : option float :=
  match to_float (dict_get r "view_offset") with
  | None => None
  | Some off =>
      match to_float (resolved_duration r) with
      | None => None
      | Some dur =>
          if (0 <? dur)%float then
            let off' := if (dur * 5 <? off)%float then (off / 1000)%float else off in
            let dur' := if (100000 <? dur)%float then (dur / 1000)%float else dur in
            Some (py_max 0 (py_min 100 (off' / dur' * 100)))
          else None
      end
  end.

Definition _percent_from_row (r : row) : option float :=
  match explicit_percent r with
  | Some f => Some f
  | None => percent_from_offsets r
  end.

(** The duration of a row is zero, missing or not a number: the value
    [r.get("duration") or r.get("media_duration")] does not convert to a
    float, or converts to zero. *)
Definition duration_zero_or_unreadable (r : row) : bool :=
  match to_float (resolved_duration r) with
  | None => true
  | Some d => (d =? 0)%float
  end.

End Prelude.

(** Closed interval test used to state the range of an estimate. *)
Definition in_0_100 (f : float) : bool := ((0 <=? f) && (f <=? 100))%float.

Definition absent_or_in_0_100 (o : option float) : bool :=
  match o with
  | None => true
  | Some f => in_0_100 f
  end.

(* ===================================================================== *)
(** ** Availability resolver                                              *)
(* ===================================================================== *)

(** [len(v)] *)
Definition py_len (v : value) : result Z :=
  match v with
  | VStr s => Ok (Z.of_nat (String.length s))
  | VList l => Ok (Z.of_nat (length l))
  | VDict d => Ok (Z.of_nat (size d))
  | VNone | VBool _ | VInt _ | VFloat _ => Raise
  end.

(** The items a [for] loop draws from [v]: the elements of a list, the
    characters of a string, the keys of a dict; anything else is not
    iterable. *)
Definition py_iter (v : value) : result (list value) :=
  match v with
  | VList l => Ok l
  | VStr s => Ok ((fun c => VStr (String c EmptyString)) <$> list_ascii_of_string s)
  | VDict d => Ok (VStr <$> (map_to_list d).*1)
  | VNone | VBool _ | VInt _ | VFloat _ => Raise
  end.

(** [a / b] on integers: the correctly rounded quotient. *)
Definition py_truediv (a b : Z) : float :=
  let lift (z : Z) : spec_float :=
    match z with
    | Z0 => S754_zero false
    | Zpos p => S754_finite false p 0
    | Zneg p => S754_finite true p 0
    end in
  SF2Prim (SFdiv prec emax (lift a) (lift b)).

Section Resolver.
Context (py : runtime).

(** The API client [call_api(base_url, apikey, cmd, **params)] with the server
    behind it: an answer for a command and its parameters, or an exception
    (transport failure, or an envelope whose result is not success). *)
Context (call_api : string -> list (string * value) -> result value).

(** The loop over the historically used count fields: the first one that is
    present and not [None] is converted and returned. *)
Fixpoint first_count (md : row) (names : list string) : result (option Z) :=
  match names with
  | [] => Ok None
  | k :: names' =>
      match dict_get md k with
      | VNone => first_count md names'
      | v => n ← of_option (to_int py v); Ok (Some n)
      end
  end.

(** Body of the first [try]: [Ok (Some n)] is [return n]. *)
Definition fast_path (show_rating_key : string) : result (option Z) :=
  md ← call_api "get_metadata" [("rating_key", VStr show_rating_key)];
  match md with
  | VDict d => first_count d ["leaf_count"; "leafCount"; "episode_count"]
  | _ => Ok None
  end.

Definition season_list_of (seasons : value) : value :=
  match seasons with
  | VDict d => py_or (dict_get d "children_list") (VList [])
  | _ => py_or seasons (VList [])
  end.

(** One pass of the season loop: [Ok None] is [continue], [Ok (Some n)] the
    amount added to [total_eps]. *)
Definition season_count (s : value) : result (option Z) :=
  match s with
  | VDict sd =>
      let season_key := py_or (dict_get sd "rating_key") (dict_get sd "ratingKey") in
      if truthy season_key then
        eps ← call_api "get_children_metadata"
                [("rating_key", season_key); ("media_type", VStr "season")];
        cnt ← match eps with
              | VDict ed =>
                  match dict_get ed "children_count" with
                  | VNone =>
                      n ← py_len (py_or (dict_get ed "children_list") (VList []));
                      Ok (VInt n)
                  | c => Ok c
                  end
              | _ => n ← py_len (py_or eps (VList [])); Ok (VInt n)
              end;
        n ← of_option (to_int py (py_or cnt (VInt 0)));
        Ok (Some n)
      else Ok None
  | _ => Raise
  end.

(** The season loop, with [total_eps] threaded through: the value of
    [total_eps] when the loop stops, and whether it stopped by raising. *)
Fixpoint season_loop (seasons : list value) (total_eps : Z) : Z * result unit :=
  match seasons with
  | [] => (total_eps, Ok tt)
  | s :: seasons' =>
      match season_count s with
      | Ok (Some n) => season_loop seasons' (total_eps + n)
      | Ok None => season_loop seasons' total_eps
      | Raise => (total_eps, Raise)
      end
  end.

(** The seasons the fallback iterates over. *)
Definition season_items (show_rating_key : string) : result (list value) :=
  seasons ← call_api "get_children_metadata"
              [("rating_key", VStr show_rating_key); ("media_type", VStr "show")];
  py_iter (season_list_of seasons).

(** Body of the second [try], started with [total_eps = 0]. *)
Definition fallback (show_rating_key : string) : Z * result unit :=
  match season_items show_rating_key with
  | Ok l => season_loop l 0
  | Raise => (0, Raise)
  end.

Definition count_available_episodes (show_rating_key : string) : result Z :=
  found ← try_except (fast_path show_rating_key) (Ok None);
  match found with
  | Some n => Ok n
  | None =>
      let '(total_eps, outcome) := fallback show_rating_key in
      try_except (_ ← outcome; Ok total_eps) (Ok total_eps)
  end.

End Resolver.

(** The sum of the amounts the season loop added: a skipped season adds
    nothing. *)
Definition counted (counts : list (option Z)) : Z :=
  foldr (fun c acc => default 0 c + acc) 0 counts.

(* ===================================================================== *)
(** ** Shared pieces of the two aggregators                               *)
(* ===================================================================== *)

(** [d.setdefault(k, v)] on a dict kept in insertion order: the entry under
    [k] when there is one, else the fresh entry. *)
Fixpoint assoc_lookup {A} (k : string) (d : list (string * A)) : option A :=
  match d with
  | [] => None
  | (k', a) :: d' => if bool_decide (k' = k) then Some a else assoc_lookup k d'
  end.

(** Writing back the entry under [k]: in place when the key is there, at the
    end when it is new. *)
Fixpoint assoc_store {A} (k : string) (a : A) (d : list (string * A)) : list (string * A) :=
  match d with
  | [] => [(k, a)]
  | (k', a') :: d' =>
      if bool_decide (k' = k) then (k, a) :: d' else (k', a') :: assoc_store k a d'
  end.

(** [first_watched] after seeing the formatted timestamp [tsr]. *)
Definition earliest (tsr cur : string) : string :=
  if str_nonempty tsr then
    if negb (str_nonempty cur) || String.ltb tsr cur then tsr else cur
  else cur.

(** [last_watched] after seeing [tsr]. *)
Definition latest (tsr cur : string) : string :=
  if str_nonempty tsr then
    if negb (str_nonempty cur) || String.ltb cur tsr then tsr else cur
  else cur.

(** [pct is None or pct >= watched_threshold] *)
Definition watched (watched_threshold : float) (pct : option float) : bool :=
  match pct with
  | None => true
  | Some p => (watched_threshold <=? p)%float
  end.

(** [list.sort(key=...)]: keys are computed for every element first (any of
    them may raise), then the elements are put in key order, equal keys
    keeping their order. *)
Fixpoint insert_by {A K} (lt : K -> K -> bool) (x : K * A) (l : list (K * A)) : list (K * A) :=
  match l with
  | [] => [x]
  | y :: l' => if lt y.1 x.1 then y :: insert_by lt x l' else x :: y :: l'
  end.

Definition sort_by {A K} (lt : K -> K -> bool) (l : list (K * A)) : list (K * A) :=
  foldr (insert_by lt) [] l.

Definition py_sort {A K} (key : A -> result K) (lt : K -> K -> bool) (l : list A) : result (list A) :=
  keyed ← mapM (fun x => k ← key x; Ok (k, x)) l;
  Ok ((sort_by lt keyed).*2).

(** Running a loop body that may raise over the rows. *)
Fixpoint fold_rows {S} (step : S -> row -> result S) (st : S) (rows : list row) : result S :=
  match rows with
  | [] => Ok st
  | r :: rows' => st' ← step st r; fold_rows step st' rows'
  end.

(** The timestamp field a row is dated by. *)
Definition row_timestamp (r : row) : value :=
  py_or (py_or (py_or (dict_get r "date") (dict_get r "stopped"))
               (dict_get r "started"))
        (dict_get r "last_played").

(** [(title or "").lower()], the text part of both sort keys; a title that is
    not text has no [lower]. *)
Definition lower_title (py : runtime) (title : value) : result string :=
  match py_or title (VStr "") with
  | VStr s => Ok (str_lower py s)
  | _ => Raise
  end.

(* ===================================================================== *)
(** ** Series aggregator                                                  *)
(* ===================================================================== *)

Module Series.

(** A show's entry of [series] while the rows are folded; a field [b_x] is
    the dict's key [x].  The two count keys the script initialises to 0 are
    only written at the end and are part of [summary]. *)
Record bucket : Type := {
  b_show_title : value;
  b_show_rating_key : string;
  b_avg_episode_percent : float;
  b_first_watched : string;
  b_last_watched : string;
  _plays_count : Z;
  _seen_watched : gset string;
  _seen_partial : gset string
}.

(** A finalized row, as exported. *)
Record summary : Type := {
  show_title : value;
  show_rating_key : string;
  unique_episodes_watched : Z;
  episodes_partial : Z;
  avg_episode_percent : float;
  first_watched : string;
  last_watched : string;
  available_episodes : Z;
  percent_watched_show : value
}.

Section Aggregate.
Context (py : runtime).

Definition show_key_of (r : row) : string :=
  py_str py (py_or (dict_get r "grandparent_rating_key") (VStr "")).

Definition show_title_of (r : row) : value :=
  py_or (py_or (py_or (dict_get r "grandparent_title") (dict_get r "full_title"))
               (dict_get r "title"))
        (VStr "Unbekannt").

Definition ep_key_of (r : row) : string :=
  py_str py (py_or (dict_get r "rating_key") (VStr "")).

(** [show_key or show_title], the key of [series].  A title that is not text
    and serves as a key starts (or belongs to) an entry whose title the final
    sort cannot lower-case, so the call raises whenever this key is not text;
    the embedding raises on the spot. *)
Definition bucket_key (r : row) : result string :=
  if str_nonempty (show_key_of r) then Ok (show_key_of r)
  else match show_title_of r with
       | VStr s => Ok s
       | _ => Raise
       end.

Definition new_bucket (r : row) : bucket :=
  let tsr := _ts_readable py (row_timestamp r) in
  {| b_show_title := show_title_of r;
     b_show_rating_key := show_key_of r;
     b_avg_episode_percent := 0;
     b_first_watched := tsr;
     b_last_watched := tsr;
     _plays_count := 0;
     _seen_watched := ∅;
     _seen_partial := ∅ |}.

(** The average over plays. *)
Definition update_avg (pct : option float) (avg0 : float) (plays : Z) : float :=
  match pct with
  | Some p => ((avg0 * float_of_Z plays + p) / float_of_Z (plays + 1))%float
  | None => avg0
  end.

(** The unique-episode bookkeeping. *)
Definition update_seen (ep_key : string) (is_watched : bool)
    (seen : gset string * gset string) : gset string * gset string :=
  let '(seen_watched, seen_partial) := seen in
  if str_nonempty ep_key then
    if is_watched then ({[ep_key]} ∪ seen_watched, seen_partial)
    else if bool_decide (ep_key ∈ seen_watched) then (seen_watched, seen_partial)
    else (seen_watched, {[ep_key]} ∪ seen_partial)
  else (seen_watched, seen_partial).

(** The loop body applied to the entry of the row's show. *)
Definition update_bucket (watched_threshold : float) (r : row) (b : bucket) : bucket :=
  let tsr := _ts_readable py (row_timestamp r) in
  let pct := _percent_from_row py r in
  let seen := update_seen (ep_key_of r) (watched watched_threshold pct)
                (_seen_watched b, _seen_partial b) in
  {| b_show_title := b_show_title b;
     b_show_rating_key := b_show_rating_key b;
     b_avg_episode_percent := update_avg pct (b_avg_episode_percent b) (_plays_count b);
     b_first_watched := earliest tsr (b_first_watched b);
     b_last_watched := latest tsr (b_last_watched b);
     _plays_count := _plays_count b + 1;
     _seen_watched := seen.1;
     _seen_partial := seen.2 |}.

Definition series_step (watched_threshold : float)
    (series : list (string * bucket)) (r : row) : result (list (string * bucket)) :=
  k ← bucket_key r;
  let b := default (new_bucket r) (assoc_lookup k series) in
  Ok (assoc_store k (update_bucket watched_threshold r b) series).

(** [series] when the loop over the rows is done. *)
Definition series_buckets (watched_threshold : float) (rows : list row)
    : result (list (string * bucket)) :=
  fold_rows (series_step watched_threshold) [] rows.

Definition finalize (b : bucket) : summary :=
  {| show_title := b_show_title b;
     show_rating_key := b_show_rating_key b;
     unique_episodes_watched := Z.of_nat (size (_seen_watched b));
     episodes_partial := Z.of_nat (size (_seen_partial b));
     avg_episode_percent := round2 (b_avg_episode_percent b);
     first_watched := b_first_watched b;
     last_watched := b_last_watched b;
     available_episodes := 0;
     percent_watched_show := VStr "" |}.

Definition aggregate_series (watched_threshold : float) (rows : list row)
    : result (list summary) :=
  series ← series_buckets watched_threshold rows;
  py_sort (fun x => lower_title py (show_title x)) String.ltb (finalize <$> series.*2).

(** *** Filling in the availability columns *)

Context (call_api : string -> list (string * value) -> result value).

Definition resolve_available (show_key : string) : Z :=
  if str_nonempty show_key then
    match count_available_episodes py call_api show_key with
    | Ok n => n
    | Raise => 0
    end
  else 0.

Definition with_available (x : summary) (avail : Z) : summary :=
  {| show_title := show_title x;
     show_rating_key := show_rating_key x;
     unique_episodes_watched := unique_episodes_watched x;
     episodes_partial := episodes_partial x;
     avg_episode_percent := avg_episode_percent x;
     first_watched := first_watched x;
     last_watched := last_watched x;
     available_episodes := avail;
     percent_watched_show :=
       if 0 <? avail then
         VFloat (round2 (py_truediv (unique_episodes_watched x) avail * 100))
       else VStr "" |}.

(** The rows after [compute_available_after] has updated them in place. *)
Definition compute_available_after (series_rows : list summary) : list summary :=
  (fun x => with_available x (resolve_available (show_rating_key x))) <$> series_rows.

End Aggregate.
End Series.

(* ===================================================================== *)
(** ** Movie aggregator                                                   *)
(* ===================================================================== *)

Module Movies.

(** A movie's entry of [movies]; the exported row is the same dict. *)
Record summary : Type := {
  movie_title : value;
  year : value;
  plays : Z;
  max_percent : float;
  avg_percent : float;
  last_percent : option float;
  completed_any : bool;
  first_watched : string;
  last_watched : string
}.

Section Aggregate.
Context (py : runtime).

Definition key_of (r : row) : string :=
  py_str py (py_or (py_or (dict_get r "rating_key") (dict_get r "parent_rating_key"))
                   (VStr "")).

Definition title_of (r : row) : value :=
  py_or (py_or (dict_get r "title") (dict_get r "full_title")) (VStr "Unbekannt").

Definition year_of (r : row) : value :=
  py_or (dict_get r "year") (VStr "").

(** [key or f"{title} ({year})"] *)
Definition bucket_key (r : row) : string :=
  if str_nonempty (key_of r) then key_of r
  else py_str py (title_of r) +:+ " (" +:+ py_str py (year_of r) +:+ ")".

Definition new_bucket (r : row) : summary :=
  let tsr := _ts_readable py (row_timestamp r) in
  {| movie_title := title_of r;
     year := year_of r;
     plays := 0;
     max_percent := 0;
     avg_percent := 0;
     last_percent := None;
     completed_any := false;
     first_watched := tsr;
     last_watched := tsr |}.

Definition update_bucket (watched_threshold : float) (r : row) (b : summary) : summary :=
  let tsr := _ts_readable py (row_timestamp r) in
  let pct := _percent_from_row py r in
  let plays' := plays b + 1 in
  {| movie_title := movie_title b;
     year := year b;
     plays := plays';
     max_percent :=
       match pct with
       | Some p => py_max (max_percent b) p
       | None => max_percent b
       end;
     avg_percent :=
       match pct with
       | Some p => ((avg_percent b * float_of_Z (plays' - 1) + p) / float_of_Z plays')%float
       | None => avg_percent b
       end;
     last_percent :=
       match pct with
       | Some p => Some p
       | None => last_percent b
       end;
     completed_any := if watched watched_threshold pct then true else completed_any b;
     first_watched := earliest tsr (first_watched b);
     last_watched := latest tsr (last_watched b) |}.

Definition movies_step (watched_threshold : float)
    (movies : list (string * summary)) (r : row) : list (string * summary) :=
  let k := bucket_key r in
  let b := default (new_bucket r) (assoc_lookup k movies) in
  assoc_store k (update_bucket watched_threshold r b) movies.

(** [movies] when the loop over the rows is done. *)
Definition movies_buckets (watched_threshold : float) (rows : list row)
    : list (string * summary) :=
  foldl (movies_step watched_threshold) [] rows.

Definition finalize (b : summary) : summary :=
  {| movie_title := movie_title b;
     year := year b;
     plays := plays b;
     max_percent := round2 (max_percent b);
     avg_percent := round2 (avg_percent b);
     last_percent := round2 <$> last_percent b;
     completed_any := completed_any b;
     first_watched := first_watched b;
     last_watched := last_watched b |}.

(** The sort key [((title or "").lower(), str(year or ""))]. *)
Definition sort_key (x : summary) : result (string * string) :=
  t ← lower_title py (movie_title x);
  Ok (t, py_str py (py_or (year x) (VStr ""))).

(** Order on the key pairs: by the first component, then by the second. *)
Definition pair_ltb (a b : string * string) : bool :=
  String.ltb a.1 b.1 || (String.eqb a.1 b.1 && String.ltb a.2 b.2).

Definition aggregate_movies (watched_threshold : float) (rows : list row)
    : result (list summary) :=
  py_sort sort_key pair_ltb (finalize <$> (movies_buckets watched_threshold rows).*2).

End Aggregate.
End Movies.

(* ===================================================================== *)
(** ** User resolution and history fetching                               *)
(* ===================================================================== *)

(** [d.get(k, "")]: the empty string stands in for a missing key only. *)
Definition dict_get_or_empty (d : row) (k : string) : value :=
  match d !! k with
  | Some v => v
  | None => VStr ""
  end.

(** The page size of [fetch_history]. *)
Definition page : Z := 1000.

(** The keyword arguments of the [get_history] call. *)
Definition history_params (user_id : Z) (media_type : string) (start : Z)
    : list (string * value) :=
  [("user_id", VInt user_id); ("media_type", VStr media_type);
   ("start", VInt start); ("length", VInt page);
   ("order_column", VStr "date"); ("order_dir", VStr "asc")].

(** [data["data"] if isinstance(data, dict) and "data" in data else data] *)
Definition page_rows (data : value) : value :=
  match data with
  | VDict d =>
      match d !! "data" with
      | Some rows => rows
      | None => data
      end
  | _ => data
  end.

Section Client.
Context (py : runtime).
Context (call_api : string -> list (string * value) -> result value).

(** The test of one listed user: one of the name fields, as text and
    lower-cased, equals the lower-cased name. *)
Definition name_matches (name_lower : string) (fields : list string) (u : row) : bool :=
  existsb (fun f => String.eqb (str_lower py (py_str py (dict_get_or_empty u f))) name_lower)
    fields.

(** [int(u["user_id"])] *)
Definition user_id_of (u : row) : result Z :=
  v ← of_option (u !! "user_id");
  of_option (to_int py v).

(** One of the two loops over a user listing: [Ok (Some uid)] is
    [return uid], [Ok None] the end of the loop. *)
Fixpoint find_user (name_lower : string) (fields : list string) (users : list value)
    : result (option Z) :=
  match users with
  | [] => Ok None
  | VDict u :: users' =>
      if name_matches name_lower fields u then uid ← user_id_of u; Ok (Some uid)
      else find_user name_lower fields users'
  | _ :: _ => Raise
  end.

(** Body of the [try] around the preferred listing. *)
Definition primary_lookup (name_lower : string) : result (option Z) :=
  users ← call_api "get_users" [];
  l ← py_iter users;
  find_user name_lower ["username"; "friendly_name"] l.

(** The lookup in the second listing; no match is the [KeyError]. *)
Definition fallback_lookup (name_lower : string) : result Z :=
  users2 ← call_api "get_user_names" [];
  l ← py_iter users2;
  found ← find_user name_lower ["friendly_name"] l;
  of_option found.

Definition resolve_user_id (name : string) : result Z :=
  let name_lower := str_lower py name in
  found ← try_except (primary_lookup name_lower) (Ok None);
  match found with
  | Some uid => Ok uid
  | None => fallback_lookup name_lower
  end.

(** The [while True] loop of [fetch_history], run for at most [fuel] pages:
    [None] when the pages allowed are used up before the loop ends. *)
Fixpoint fetch_pages (fuel : nat) (user_id : Z) (media_type : string) (start : Z)
    (results : list value) : option (result (list value)) :=
  match fuel with
  | O => None
  | S fuel' =>
      match call_api "get_history" (history_params user_id media_type start) with
      | Raise => Some Raise
      | Ok data =>
          let rows := page_rows data in
          if truthy rows then
            match py_iter rows, py_len rows with
            | Ok items, Ok n =>
                if n <? page then Some (Ok (results ++ items))
                else fetch_pages fuel' user_id media_type (start + n) (results ++ items)
            | _, _ => Some Raise
            end
          else Some (Ok results)
      end
  end.

Definition fetch_history (fuel : nat) (user_id : Z) (media_type : string)
    : option (result (list value)) :=
  if String.eqb media_type "episode" || String.eqb media_type "movie"
  then fetch_pages fuel user_id media_type 0 []
  else Some Raise.

End Client.

(* ===================================================================== *)
(** ** API client                                                         *)
(* ===================================================================== *)

(** [s.rstrip("/")] *)
Fixpoint rstrip_slash (s : string) : string :=
  match s with
  | EmptyString => EmptyString
  | String c s' =>
      match rstrip_slash s' with
      | EmptyString => if Ascii.eqb c "/" then EmptyString else String c EmptyString
      | t => String c t
      end
  end.

(** What [requests] hands back: the status code and the decoded body (the
    decoding may raise). *)
Record response : Type := {
  status_code : Z;
  json : result value
}.

(** [r.raise_for_status()] raises on the client and server error codes. *)
Definition is_error_status (code : Z) : bool := (400 <=? code) && (code <? 600).

Definition not_none (v : value) : bool :=
  match v with
  | VNone => false
  | _ => true
  end.

(** The address and the query of a request. *)
Definition api_url (base_url : string) : string := rstrip_slash base_url +:+ "/api/v2".

Definition api_payload (apikey cmd : string) (params : list (string * value))
    : list (string * value) :=
  [("apikey", VStr apikey); ("cmd", VStr cmd)]
  ++ List.filter (fun p => not_none p.2) params.

Section Http.

(** [_session.get(url, params=payload, timeout=30)]: a response, or an
    exception of the transport. *)
Context (http_get : string -> list (string * value) -> result response).

Definition call_api (base_url apikey cmd : string) (params : list (string * value))
    : result value :=
  r ← http_get (api_url base_url) (api_payload apikey cmd params);
  if is_error_status (status_code r) then Raise
  else
    js ← json r;
    match js with
    | VDict d =>
        match match d !! "response" with Some v => v | None => VDict ∅ end with
        | VDict resp =>
            match dict_get resp "result" with
            | VStr s =>
                if String.eqb s "success" then of_option (resp !! "data") else Raise
            | _ => Raise
            end
        | _ => Raise
        end
    | _ => Raise
    end.

End Http.

(* ===================================================================== *)
(** ** Progress logging                                                   *)
(* ===================================================================== *)

Definition fmt_duration (seconds : float) : result string :=
  n ← of_option (float_trunc seconds);
  let '(m, s) := (n / 60, n mod 60) in
  let '(h, m) := (m / 60, m mod 60) in
  if negb (h =? 0) then
    Ok (pretty h +:+ "h " +:+ pretty m +:+ "m " +:+ pretty s +:+ "s")
  else if negb (m =? 0) then Ok (pretty m +:+ "m " +:+ pretty s +:+ "s")
  else Ok (pretty s +:+ "s").

(* ===================================================================== *)
(** ** Columns of the returned rows                                       *)
(* ===================================================================== *)

(** A column (or a tuple of columns) of the rows a call returns. *)
Definition columns {A B} (f : A -> B) (m : result (list A)) : result (list B) :=
  match m with
  | Ok rows => Ok (f <$> rows)
  | Raise => Raise
  end.

(** The two episode counts of a finalized row. *)
Definition episode_counts (x : Series.summary) : Z * Z :=
  (Series.unique_episodes_watched x, Series.episodes_partial x).

(** The columns that identify a show and count its episodes. *)
Definition show_counts (x : Series.summary) : value * string * Z * Z :=
  (Series.show_title x, Series.show_rating_key x,
   Series.unique_episodes_watched x, Series.episodes_partial x).

(** The two availability columns of a row. *)
Definition availability (x : Series.summary) : Z * value :=
  (Series.available_episodes x, Series.percent_watched_show x).

(* ===================================================================== *)
(** ** Inputs for the closed examples                                     *)
(* ===================================================================== *)

Definition ascii_lower (s : string) : string :=
  string_of_list_ascii
    ((fun c => let n := nat_of_ascii c in
               if (65 <=? n)%nat && (n <=? 90)%nat then ascii_of_nat (n + 32) else c)
       <$> list_ascii_of_string s).

(** A runtime for the examples.  It follows CPython on what they use: text
    made of decimal digits read as a number, ASCII letters lower-cased.  The
    examples date their rows by text and print no float or container. *)
Definition example_runtime : runtime :=
  {| float_of_str := fun s => (fun i => float_of_Z (Z.of_int i)) <$> NilZero.int_of_string s;
     int_of_str := fun s => Z.of_int <$> NilZero.int_of_string s;
     repr_other := fun _ => "";
     strftime_local := fun _ => None;
     str_lower := ascii_lower |}.

(** An episode play of show "X" (key "1"). *)
Definition episode_play (ep : string) (fields : list (string * value)) : row :=
  list_to_map ([("grandparent_rating_key", VStr "1"); ("grandparent_title", VStr "X");
                ("rating_key", VStr ep)] ++ fields).

Definition over_reported : row := {[ "percent_complete" := VInt 150 ]}.

Definition half_seen : row :=
  list_to_map [("view_offset", VInt 1800); ("duration", VInt 3600)].

Definition explicit_and_offsets : row :=
  list_to_map [("percent_complete", VStr "95"); ("view_offset", VInt 10);
               ("duration", VInt 3600)].

Definition zero_duration : row :=
  list_to_map [("view_offset", VInt 1800); ("duration", VStr "0")].

Definition partial_play : row := episode_play "A" [("percent_complete", VInt 40)].
Definition full_play : row := episode_play "A" [("percent_complete", VInt 95)].
Definition play_90 : row := episode_play "A" [("percent_complete", VInt 90)].
Definition play_30 : row := episode_play "A" [("percent_complete", VInt 30)].
Definition untracked_play : row := episode_play "B" [].

Definition keyless_play : row :=
  list_to_map [("grandparent_rating_key", VStr "1"); ("grandparent_title", VStr "X");
               ("percent_complete", VInt 95); ("date", VStr "2024-01-02 03:04:05")].

(** An earlier play of show "X": episode "A", stopped at 40%, and the entry
    of the show after it. *)
Definition dated_partial_play : row :=
  episode_play "A" [("percent_complete", VInt 40); ("date", VStr "2024-01-05 21:00:00")].



(** A later play of show "X" without episode key and without percent. *)
Definition late_keyless_play : row :=
  list_to_map [("grandparent_rating_key", VStr "1"); ("grandparent_title", VStr "X");
               ("rating_key", VStr ""); ("date", VStr "2024-01-09 20:00:00")].

(** A season entry of a show's children list. *)
Definition season (key : string) : value := VDict {[ "rating_key" := VStr key ]}.

Definition text_param (name : string) (params : list (string * value)) : string :=
  match assoc_lookup name params with
  | Some (VStr s) => s
  | _ => ""
  end.

(** A server without show metadata whose show "1" has three seasons: the
    first reports 5 episodes, the second lists 4, the third cannot be read. *)
Definition api_third_season_fails (cmd : string) (params : list (string * value))
    : result value :=
  if String.eqb cmd "get_children_metadata" then
    let key := text_param "rating_key" params in
    if String.eqb key "1" then Ok (VList [season "s1"; season "s2"; season "s3"])
    else if String.eqb key "s1" then Ok (VDict {[ "children_count" := VInt 5 ]})
    else if String.eqb key "s2" then Ok (VList [VNone; VNone; VNone; VNone])
    else Raise
  else Raise.

(** The same kind of server, reporting a negative count for the first of two
    seasons. *)
Definition api_negative_season (cmd : string) (params : list (string * value))
    : result value :=
  if String.eqb cmd "get_children_metadata" then
    let key := text_param "rating_key" params in
    if String.eqb key "1" then Ok (VList [season "s1"; season "s2"])
    else if String.eqb key "s1" then Ok (VDict {[ "children_count" := VInt (-3) ]})
    else Raise
  else Raise.

(** A server whose show metadata carries [leaf_count]. *)
Definition api_leaf_count (n : Z) (cmd : string) (params : list (string * value))
    : result value :=
  if String.eqb cmd "get_metadata" then Ok (VDict {[ "leaf_count" := VInt n ]})
  else Raise.

(** An aggregated row of show "1" with two watched episodes. *)
Definition two_watched : Series.summary :=
  {| Series.show_title := VStr "X";
     Series.show_rating_key := "1";
     Series.unique_episodes_watched := 2;
     Series.episodes_partial := 0;
     Series.avg_episode_percent := 95;
     Series.first_watched := "";
     Series.last_watched := "";
     Series.available_episodes := 0;
     Series.percent_watched_show := VStr "" |}.

(** A movie play without any completion data. *)
Definition movie_play (date : string) : row :=
  list_to_map [("rating_key", VStr "m1"); ("title", VStr "M"); ("year", VInt 1999);
               ("date", VStr date)].

(* ===================================================================== *)
(** ** Relations on the state of the series loop                          *)
(* ===================================================================== *)

(** Two entries describe the same show with the same two episode sets. *)
Definition same_sets (b1 b2 : Series.bucket) : Prop :=
  Series.b_show_title b1 = Series.b_show_title b2 /\
  Series.b_show_rating_key b1 = Series.b_show_rating_key b2 /\
  Series._seen_watched b1 = Series._seen_watched b2 /\
  Series._seen_partial b1 = Series._seen_partial b2.

(** Two states hold the same shows, in the same order, with the same sets. *)
Definition same_shows (s1 s2 : list (string * Series.bucket)) : Prop :=
  Forall2 (fun p q => p.1 = q.1 /\ same_sets p.2 q.2) s1 s2.

(** The row [r] has nothing to add to the sets of the state [st]: its show is
    there and the bookkeeping of its episode leaves both sets as they are. *)
Definition absorbed (py : runtime) (thr : float) (r : row)
    (st : list (string * Series.bucket)) : Prop :=
  exists k b,
    Series.bucket_key py r = Ok k /\
    assoc_lookup k st = Some b /\
    Series.update_seen (Series.ep_key_of py r) (watched thr (_percent_from_row py r))
      (Series._seen_watched b, Series._seen_partial b)
    = (Series._seen_watched b, Series._seen_partial b).

(** A play of an episode of some show, and a list of plays of two shows:
    three plays of "Alpha" (two of episode "e1", stopped at 40% and then
    finished, one of "e2" without percent under a changed title) after one
    play of "beta". *)
Definition play_of (show title ep date : string) (fields : list (string * value)) : row :=
  list_to_map ([("grandparent_rating_key", VStr show); ("grandparent_title", VStr title);
                ("rating_key", VStr ep); ("date", VStr date)] ++ fields).

Definition two_shows : list row :=
  [play_of "2" "beta" "e1" "2024-03-01 10:00:00" [("percent_complete", VInt 90)];
   play_of "1" "Alpha" "e1" "2024-01-05 21:00:00" [("percent_complete", VInt 40)];
   play_of "1" "Alpha" "e1" "2024-01-06 21:00:00" [("percent_complete", VInt 95)];
   play_of "1" "Alpha (new)" "e2" "2024-01-02 08:00:00" []].

(** The same plays, latest first. *)
Definition two_shows_reversed : list row := reverse two_shows.

(** Plays of two movies: "m1" twice, at 90% and without percent, and "m2"
    once at 30%. *)
Definition movie_play_of (key title date : string) (fields : list (string * value)) : row :=
  list_to_map ([("rating_key", VStr key); ("title", VStr title); ("year", VInt 1999);
                ("date", VStr date)] ++ fields).

Definition two_movies : list row :=
  [movie_play_of "m1" "Zulu" "2024-02-01 20:00:00" [("percent_complete", VInt 90)];
   movie_play_of "m2" "alpha" "2024-01-01 20:00:00" [("percent_complete", VInt 30)];
   movie_play_of "m1" "Zulu" "2024-01-15 20:00:00" []].

(** A server with two user listings. *)
Definition listed_user (fields : list (string * value)) : value := VDict (list_to_map fields).

Definition alice : row :=
  list_to_map [("username", VStr "Alice"); ("user_id", VInt 7)].

Definition bob : row :=
  list_to_map [("username", VStr "bob"); ("friendly_name", VStr "Bobby");
               ("user_id", VStr "12")].

Definition api_users (cmd : string) (params : list (string * value)) : result value :=
  if String.eqb cmd "get_users" then Ok (VList [VDict alice; VDict bob])
  else if String.eqb cmd "get_user_names" then
    Ok (VList [listed_user [("friendly_name", VStr "Carol"); ("user_id", VInt 3)]])
  else Raise.

(** A server that holds a history and serves it in pages. *)
Definition api_history (all : list value) (cmd : string) (params : list (string * value))
    : result value :=
  match assoc_lookup "start" params, assoc_lookup "length" params with
  | Some (VInt start), Some (VInt len) =>
      Ok (VDict {[ "data" := VList (take (Z.to_nat len) (drop (Z.to_nat start) all)) ]})
  | _, _ => Raise
  end.

Definition long_history : list value := replicate 1500 (VDict ∅).

(** A server whose show metadata names the count [leafCount]. *)
Definition api_leafCount (cmd : string) (params : list (string * value)) : result value :=
  if String.eqb cmd "get_metadata" then
    Ok (VDict (list_to_map [("title", VStr "X"); ("leafCount", VInt 8);
                            ("episode_count", VInt 9)]))
  else Raise.

(** A server without show metadata whose show has a season of 5 episodes, an
    entry without key, and a season of 4. *)
Definition api_two_seasons (cmd : string) (params : list (string * value)) : result value :=
  if String.eqb cmd "get_children_metadata" then
    let key := text_param "rating_key" params in
    if String.eqb key "1" then
      Ok (VDict {[ "children_list" := VList [season "s1"; VDict ∅; season "s2"] ]})
    else if String.eqb key "s1" then Ok (VDict {[ "children_count" := VInt 5 ]})
    else if String.eqb key "s2" then Ok (VList [VNone; VNone; VNone; VNone])
    else Raise
  else Raise.

(* ===================================================================== *)
(** ** One show, one movie at a time                                      *)
(* ===================================================================== *)

(** The row is a play of the show kept under the key [k]. *)
Definition in_show (py : runtime) (k : string) (r : row) : bool :=
  match Series.bucket_key py r with
  | Ok k' => String.eqb k' k
  | Raise => false
  end.

(** The entry under [k] once the loop body has met the rows, started from
    the entry [entry] ([None]: no entry yet), the other shows left aside. *)
Definition show_entry_after (py : runtime) (thr : float) (k : string)
    (entry : option Series.bucket) (rows : list row) : option Series.bucket :=
  foldl (fun o r =>
           if in_show py k r
           then Some (Series.update_bucket py thr r (default (Series.new_bucket py r) o))
           else o)
    entry rows.

(** The same for a movie. *)
Definition in_movie (py : runtime) (k : string) (r : row) : bool :=
  String.eqb (Movies.bucket_key py r) k.

Definition movie_entry_after (py : runtime) (thr : float) (k : string)
    (entry : option Movies.summary) (rows : list row) : option Movies.summary :=
  foldl (fun o r =>
           if in_movie py k r
           then Some (Movies.update_bucket py thr r (default (Movies.new_bucket py r) o))
           else o)
    entry rows.

(** The formatted timestamp of a row. *)
Definition stamp_of (py : runtime) (r : row) : string := _ts_readable py (row_timestamp r).

(** [first_watched] and [last_watched] after one more timestamp. *)
Definition stamp (range : string * string) (tsr : string) : string * string :=
  (earliest tsr range.1, latest tsr range.2).

(* ===================================================================== *)
(** * Properties                                                          *)
(* ===================================================================== *)

(** ** Floating-point comparisons *)

Lemma float_ltb_leb (x y : float) : (x <? y)%float = true -> (x <=? y)%float = true.
Proof.
  rewrite FloatAxioms.ltb_spec, FloatAxioms.leb_spec. unfold SFltb, SFleb.
  destruct (SFcompare (Prim2SF x) (Prim2SF y)) as [[]|]; intros H;
    first [reflexivity | discriminate H].
Qed.

Lemma float_zero_not_positive (d : float) : (d =? 0)%float = true -> (0 <? d)%float = false.
Proof.
  rewrite FloatAxioms.eqb_spec, FloatAxioms.ltb_spec.
  change (Prim2SF 0) with (S754_zero false).
  unfold SFeqb, SFltb.
  destruct (Prim2SF d) as [s|s| |s m e]; simpl; try destruct s; intros H;
    first [reflexivity | discriminate H].
Qed.

Lemma clamp_in_0_100 (x : float) : in_0_100 (py_max 0 (py_min 100 x)) = true.
Proof.
  unfold py_min. destruct (x <? 100)%float eqn:Hhi.
  - unfold py_max. destruct (0 <? x)%float eqn:Hlo.
    + unfold in_0_100. rewrite (float_ltb_leb _ _ Hlo), (float_ltb_leb _ _ Hhi). reflexivity.
    + reflexivity.
  - reflexivity.
Qed.

(** ** Completion estimator *)

Section Estimator.
Context (py : runtime).

Lemma explicit_percent_to_float (r : row) :
  explicit_percent py r = to_float py (dict_get r "percent_complete").
Proof. unfold explicit_percent. destruct (dict_get r "percent_complete"); reflexivity. Qed.

Lemma dict_get_insert_ne (r : row) (k k' : string) (v : value) :
  k <> k' -> dict_get (<[k := v]> r) k' = dict_get r k'.
Proof. intros Hne. unfold dict_get. rewrite lookup_insert_ne by exact Hne. reflexivity. Qed.

Lemma offsets_in_range (r : row) : absent_or_in_0_100 (percent_from_offsets py r) = true.
Proof.
  unfold percent_from_offsets.
  destruct (to_float py (dict_get r "view_offset")) as [off|]; [|reflexivity].
  destruct (to_float py (resolved_duration r)) as [dur|]; [|reflexivity].
  destruct (0 <? dur)%float; [|reflexivity].
  simpl. apply clamp_in_0_100.
Qed.

(** C3 (amended): for a row without a convertible explicit percent field the
    estimate is absent or lies in the closed interval [0, 100]: the value
    computed from position and duration is clamped.  (A convertible explicit
    percent is returned as it is, without clamping.) *)
Theorem derived_percent_in_range (r : row) :
  explicit_percent py r = None ->
  absent_or_in_0_100 (_percent_from_row py r) = true.
Proof.
  intros Hnone. unfold _percent_from_row. rewrite Hnone. apply offsets_in_range.
Qed.

(** C4: when the explicit [percent_complete] field converts to a float, the
    estimator returns exactly that float, whatever the other fields of the row
    hold: the result is the same after any change of any other field. *)
Theorem explicit_percent_returned (r : row) (f : float) :
  to_float py (dict_get r "percent_complete") = Some f ->
  _percent_from_row py r = Some f /\
  forall (k : string) (v : value),
    k <> "percent_complete" -> _percent_from_row py (<[k := v]> r) = Some f.
Proof.
  intros Hpc. split.
  - unfold _percent_from_row. rewrite explicit_percent_to_float, Hpc. reflexivity.
  - intros k v Hk. unfold _percent_from_row.
    rewrite explicit_percent_to_float, (dict_get_insert_ne _ _ _ _ Hk), Hpc. reflexivity.
Qed.

(** C5: without a convertible explicit percent, a row whose duration is zero,
    missing or not a number has no estimate: the result is [None], not 0. *)
Theorem unusable_duration_is_absent (r : row) :
  explicit_percent py r = None ->
  duration_zero_or_unreadable py r = true ->
  _percent_from_row py r = None /\ _percent_from_row py r <> Some 0%float.
Proof.
  intros Hnone Hdur.
  assert (H : _percent_from_row py r = None).
  { unfold _percent_from_row, percent_from_offsets. rewrite Hnone.
    unfold duration_zero_or_unreadable in Hdur.
    destruct (to_float py (dict_get r "view_offset")) as [off|]; [|reflexivity].
    destruct (to_float py (resolved_duration r)) as [dur|]; [|reflexivity].
    rewrite (float_zero_not_positive _ Hdur). reflexivity. }
  split; [exact H | rewrite H; discriminate].
Qed.

End Estimator.

(** C3 (as stated) fails: an explicit percent of 150 is returned unchanged,
    outside [0, 100]. *)
Lemma explicit_percent_not_clamped :
  _percent_from_row example_runtime over_reported = Some 150%float /\
  absent_or_in_0_100 (_percent_from_row example_runtime over_reported) = false.
Proof. split; vm_compute; reflexivity. Qed.

Lemma derived_percent_in_range_witness :
  explicit_percent example_runtime half_seen = None /\
  _percent_from_row example_runtime half_seen = Some 50%float /\
  absent_or_in_0_100 (_percent_from_row example_runtime half_seen) = true.
Proof.
  split; [vm_compute; reflexivity|]. split; [vm_compute; reflexivity|].
  apply (derived_percent_in_range example_runtime half_seen). vm_compute; reflexivity.
Defined.

Lemma explicit_percent_returned_witness :
  to_float example_runtime (dict_get explicit_and_offsets "percent_complete") = Some 95%float /\
  _percent_from_row example_runtime explicit_and_offsets = Some 95%float.
Proof.
  split; [vm_compute; reflexivity|].
  apply (explicit_percent_returned example_runtime explicit_and_offsets 95%float).
  vm_compute; reflexivity.
Defined.

Lemma unusable_duration_is_absent_witness :
  explicit_percent example_runtime zero_duration = None /\
  duration_zero_or_unreadable example_runtime zero_duration = true /\
  _percent_from_row example_runtime zero_duration = None.
Proof.
  split; [vm_compute; reflexivity|]. split; [vm_compute; reflexivity|].
  apply (unusable_duration_is_absent example_runtime zero_duration); vm_compute; reflexivity.
Defined.

(** ** Series aggregator: the two sets and the average *)

(** C1 fails on the code.  An episode stopped at 40% and finished later at 95%
    ends in the watched set and in the partial set, so it is counted in both
    [unique_episodes_watched] and [episodes_partial]; with the two plays in
    the opposite order it is counted as watched only. *)
Theorem resumed_episode_in_both_sets (py : runtime) :
  (exists b, Series.series_buckets py 85 [partial_play; full_play] = Ok [("1", b)] /\
             Series._seen_watched b = {["A"]} /\ Series._seen_partial b = {["A"]}) /\
  columns episode_counts (Series.aggregate_series py 85 [partial_play; full_play])
    = Ok [(1, 1)] /\
  columns episode_counts (Series.aggregate_series py 85 [full_play; partial_play])
    = Ok [(1, 0)].
Proof.
  split; [|split].
  - eexists. split; [vm_compute; reflexivity|]. split; vm_compute; reflexivity.
  - vm_compute; reflexivity.
  - vm_compute; reflexivity.
Qed.

(** C2 fails on the code.  A play without percent leaves the average alone but
    is counted in [_plays_count], the weight of the next update: after one
    such play a play at 90% gives 45.0 where the mean of the known percents is
    90.0, and the opposite order gives 90.0. *)
Theorem untracked_play_shifts_average (py : runtime) :
  columns Series.avg_episode_percent (Series.aggregate_series py 85 [untracked_play; play_90])
    = Ok [45%float] /\
  columns Series.avg_episode_percent (Series.aggregate_series py 85 [play_90; untracked_play])
    = Ok [90%float] /\
  columns Series.avg_episode_percent (Series.aggregate_series py 85 [play_90; untracked_play; play_30])
    = Ok [70%float].
Proof. repeat split; vm_compute; reflexivity. Qed.

(** ** Insertion-ordered dicts, loops and sorting *)

Lemma fold_rows_app {S} (step : S -> row -> result S) (st : S) (l1 l2 : list row) :
  fold_rows step st (l1 ++ l2) = (st' ← fold_rows step st l1; fold_rows step st' l2).
Proof.
  revert st. induction l1 as [|r l1 IH]; intros st; simpl; [reflexivity|].
  destruct (step st r) as [st1|]; simpl; [apply IH | reflexivity].
Qed.

Lemma assoc_lookup_store_eq {A} (k : string) (a : A) (d : list (string * A)) :
  assoc_lookup k (assoc_store k a d) = Some a.
Proof.
  induction d as [|[k' a'] d IH]; simpl.
  - rewrite bool_decide_eq_true_2 by reflexivity. reflexivity.
  - destruct (bool_decide (k' = k)) eqn:E; simpl.
    + rewrite bool_decide_eq_true_2 by reflexivity. reflexivity.
    + rewrite E. exact IH.
Qed.

Lemma assoc_lookup_store_ne {A} (k k0 : string) (a : A) (d : list (string * A)) :
  k <> k0 -> assoc_lookup k0 (assoc_store k a d) = assoc_lookup k0 d.
Proof.
  intros Hne. induction d as [|[k' a'] d IH]; simpl.
  - rewrite bool_decide_eq_false_2 by exact Hne. reflexivity.
  - destruct (bool_decide (k' = k)) eqn:E; simpl.
    + apply bool_decide_eq_true_1 in E. subst k'.
      rewrite !bool_decide_eq_false_2 by exact Hne. reflexivity.
    + rewrite IH. reflexivity.
Qed.

Section Sorting.
Context {A K B : Type} (key : A -> result K) (lt : K -> K -> bool) (f : A -> B).
Hypothesis key_of_columns : forall x y, f x = f y -> key x = key y.

(** Keyed elements with equal keys and equal columns. *)
Let alike (p q : K * A) : Prop := p.1 = q.1 /\ f p.2 = f q.2.

Lemma insert_by_alike (p q : K * A) (l1 l2 : list (K * A)) :
  alike p q -> Forall2 alike l1 l2 ->
  Forall2 alike (insert_by lt p l1) (insert_by lt q l2).
Proof.
  intros Hpq Hl. induction Hl as [|x y l1 l2 Hxy Hl IH]; simpl.
  - constructor; [exact Hpq | constructor].
  - destruct Hpq as [Hk Hf], Hxy as [Hk' Hf']. rewrite <- Hk, <- Hk'.
    destruct (lt x.1 p.1).
    + constructor; [split; assumption | apply IH].
    + constructor; [split; assumption|]. constructor; [split; assumption | exact Hl].
Qed.

Lemma sort_by_alike (l1 l2 : list (K * A)) :
  Forall2 alike l1 l2 -> Forall2 alike (sort_by lt l1) (sort_by lt l2).
Proof.
  intros Hl. induction Hl as [|x y l1 l2 Hxy Hl IH]; simpl; [constructor|].
  apply insert_by_alike; assumption.
Qed.

Lemma keyed_alike (l1 l2 : list A) :
  Forall2 (fun x y => f x = f y) l1 l2 ->
  match mapM (fun x => k ← key x; Ok (k, x)) l1,
        mapM (fun x => k ← key x; Ok (k, x)) l2 with
  | Ok k1, Ok k2 => Forall2 alike k1 k2
  | Raise, Raise => True
  | _, _ => False
  end.
Proof.
  intros Hl. induction Hl as [|x y l1 l2 Hxy Hl IH]; simpl; [constructor|].
  rewrite (key_of_columns x y Hxy). destruct (key y) as [k|]; simpl; [|exact I].
  destruct (mapM _ l1) as [k1|], (mapM _ l2) as [k2|]; simpl; try exact IH.
  constructor; [split; [reflexivity | exact Hxy] | exact IH].
Qed.

Lemma alike_columns (l1 l2 : list (K * A)) :
  Forall2 alike l1 l2 -> f <$> l1.*2 = f <$> l2.*2.
Proof.
  intros Hl. induction Hl as [|x y l1 l2 [_ Hxy] Hl IH]; csimpl; [reflexivity|].
  rewrite Hxy. f_equal. exact IH.
Qed.

(** Sorting two lists whose elements agree on the columns [f] gives rows
    that agree on them, when the sort key is a function of these columns. *)
Lemma py_sort_columns (l1 l2 : list A) :
  Forall2 (fun x y => f x = f y) l1 l2 ->
  columns f (py_sort key lt l1) = columns f (py_sort key lt l2).
Proof.
  intros Hl. unfold py_sort. pose proof (keyed_alike l1 l2 Hl) as Hk.
  destruct (mapM _ l1) as [k1|], (mapM _ l2) as [k2|]; simpl; try contradiction;
    [|reflexivity].
  f_equal. apply alike_columns, sort_by_alike, Hk.
Qed.

End Sorting.

(** ** Series aggregator: what a row adds to the two sets *)

Section SeenSets.
Import Series.

Lemma update_seen_idem (e : string) (w : bool) (s : gset string * gset string) :
  update_seen e w (update_seen e w s) = update_seen e w s.
Proof.
  destruct s as [W P]. unfold update_seen.
  destruct (str_nonempty e); [|reflexivity].
  destruct w.
  - f_equal. set_solver.
  - destruct (bool_decide (e ∈ W)) eqn:Hin; rewrite Hin; [reflexivity|].
    f_equal. set_solver.
Qed.

Lemma update_seen_grows (e : string) (w : bool) (W P : gset string) :
  W ⊆ (update_seen e w (W, P)).1 /\ P ⊆ (update_seen e w (W, P)).2.
Proof.
  unfold update_seen. destruct (str_nonempty e), w; simpl;
    try destruct (bool_decide (e ∈ W)); simpl; set_solver.
Qed.

Lemma update_seen_fixed_mono (e : string) (w : bool) (W P W' P' : gset string) :
  update_seen e w (W, P) = (W, P) -> W ⊆ W' -> P ⊆ P' ->
  update_seen e w (W', P') = (W', P').
Proof.
  unfold update_seen. destruct (str_nonempty e); [|reflexivity].
  destruct w.
  - intros Hfix HW HP. f_equal. assert (e ∈ W) by (inversion Hfix; set_solver). set_solver.
  - destruct (bool_decide (e ∈ W)) eqn:Hin.
    + intros _ HW _. apply bool_decide_eq_true_1 in Hin.
      rewrite bool_decide_eq_true_2 by set_solver. reflexivity.
    + intros Hfix _ HP. destruct (bool_decide (e ∈ W')); [reflexivity|].
      f_equal. assert (e ∈ P) by (inversion Hfix; set_solver). set_solver.
Qed.

End SeenSets.

Lemma same_sets_refl (b : Series.bucket) : same_sets b b.
Proof. repeat split. Qed.

Lemma same_shows_refl (st : list (string * Series.bucket)) : same_shows st st.
Proof. induction st; constructor; [split; [reflexivity | apply same_sets_refl] | assumption]. Qed.

Lemma same_shows_lookup (k : string) (s1 s2 : list (string * Series.bucket)) (b1 : Series.bucket) :
  same_shows s1 s2 -> assoc_lookup k s1 = Some b1 ->
  exists b2, assoc_lookup k s2 = Some b2 /\ same_sets b1 b2.
Proof.
  intros Hs. induction Hs as [|[k1 x] [k2 y] s1 s2 [Hk Hxy] Hs IH]; simpl; [discriminate|].
  simpl in Hk. subst k2. destruct (bool_decide (k1 = k)).
  - intros [= <-]. exists y. split; [reflexivity | exact Hxy].
  - exact IH.
Qed.

(** Writing back, under a key that is present, an entry with the sets the
    other state has under that key keeps the two states alike. *)
Lemma same_shows_store (k : string) (s1 s2 : list (string * Series.bucket))
    (b1 b2' : Series.bucket) :
  same_shows s1 s2 -> assoc_lookup k s1 = Some b1 -> same_sets b1 b2' ->
  same_shows s1 (assoc_store k b2' s2).
Proof.
  intros Hs. induction Hs as [|[k1 x] [k2 y] s1 s2 [Hk Hxy] Hs IH]; simpl; [discriminate|].
  simpl in Hk. subst k2. destruct (bool_decide (k1 = k)) eqn:E.
  - intros [= <-] Hb. apply bool_decide_eq_true_1 in E. subst k1.
    constructor; [split; [reflexivity | exact Hb] | exact Hs].
  - intros Hl Hb. constructor; [split; [reflexivity | exact Hxy] | apply IH; assumption].
Qed.

Lemma same_shows_columns (s1 s2 : list (string * Series.bucket)) :
  same_shows s1 s2 ->
  Forall2 (fun x y => show_counts x = show_counts y)
    (Series.finalize <$> s1.*2) (Series.finalize <$> s2.*2).
Proof.
  intros Hs. induction Hs as [|[k1 x] [k2 y] s1 s2 [_ Hxy] Hs IH]; csimpl; constructor;
    [|exact IH].
  destruct Hxy as (Ht & Hk & HW & HP). simpl in *.
  unfold show_counts, Series.finalize; simpl. rewrite Ht, Hk, HW, HP. reflexivity.
Qed.

Section SeriesLoop.
Import Series.
Context (py : runtime) (thr : float).

Lemma step_absorbs_row (st st' : list (string * bucket)) (r : row) :
  series_step py thr st r = Ok st' -> absorbed py thr r st'.
Proof.
  unfold series_step. destruct (bucket_key py r) as [k|] eqn:Hk; simpl; [|discriminate].
  intros [= <-]. exists k. eexists. split; [exact Hk|].
  split; [apply assoc_lookup_store_eq|].
  unfold update_bucket; cbn [_seen_watched _seen_partial].
  rewrite <- surjective_pairing. apply update_seen_idem.
Qed.

Lemma step_keeps_absorbed (st st' : list (string * bucket)) (r r0 : row) :
  absorbed py thr r0 st -> series_step py thr st r = Ok st' -> absorbed py thr r0 st'.
Proof.
  intros (k0 & b0 & Hk0 & Hl0 & Hfix). unfold series_step.
  destruct (bucket_key py r) as [k|] eqn:Hk; simpl; [|discriminate].
  intros [= <-]. destruct (decide (k = k0)) as [->|Hne].
  - exists k0. eexists. split; [exact Hk0|]. split; [apply assoc_lookup_store_eq|].
    rewrite Hl0. unfold update_bucket; cbn [default id _seen_watched _seen_partial].
    pose proof (update_seen_grows (ep_key_of py r) (watched thr (_percent_from_row py r))
                  (_seen_watched b0) (_seen_partial b0)) as [HW HP].
    apply (update_seen_fixed_mono _ _ _ _ _ _ Hfix HW HP).
  - exists k0, b0. split; [exact Hk0|]. split; [|exact Hfix].
    rewrite assoc_lookup_store_ne by exact Hne. exact Hl0.
Qed.

(** After the loop every row it went through is absorbed. *)
Lemma loop_absorbs_rows (rows : list row) (st st' : list (string * bucket)) :
  fold_rows (series_step py thr) st rows = Ok st' ->
  (forall r0, absorbed py thr r0 st -> absorbed py thr r0 st') /\
  Forall (fun r => absorbed py thr r st') rows.
Proof.
  revert st. induction rows as [|r rows IH]; simpl; intros st.
  - intros [= <-]. split; [auto | constructor].
  - destruct (series_step py thr st r) as [st1|] eqn:Hstep; simpl; [|discriminate].
    intros Hrest. destruct (IH st1 Hrest) as [Hkeep Hall]. split.
    + intros r0 H0. apply Hkeep. eapply step_keeps_absorbed; eassumption.
    + constructor; [|exact Hall]. apply Hkeep. eapply step_absorbs_row; eassumption.
Qed.

(** A row absorbed by a state is taken by any state with the same sets, and
    leaves the sets as they are. *)
Lemma step_absorbed_row (st0 st : list (string * bucket)) (r : row) :
  absorbed py thr r st0 -> same_shows st0 st ->
  exists st', series_step py thr st r = Ok st' /\ same_shows st0 st'.
Proof.
  intros (k & b0 & Hk & Hl0 & Hfix) Hs.
  destruct (same_shows_lookup k st0 st b0 Hs Hl0) as (b & Hl & Hb).
  unfold series_step. rewrite Hk. simpl. rewrite Hl. simpl. eexists. split; [reflexivity|].
  apply (same_shows_store k st0 st b0 _ Hs Hl0).
  destruct Hb as (Ht & Hkey & HW & HP). unfold same_sets, update_bucket.
  cbn [default id b_show_title b_show_rating_key _seen_watched _seen_partial].
  rewrite <- HW, <- HP, Hfix. cbn [fst snd]. repeat split; assumption.
Qed.

Lemma loop_absorbed_rows (rows : list row) (st0 st : list (string * bucket)) :
  Forall (fun r => absorbed py thr r st0) rows -> same_shows st0 st ->
  exists st', fold_rows (series_step py thr) st rows = Ok st' /\ same_shows st0 st'.
Proof.
  intros Hall. revert st. induction Hall as [|r rows Hr Hall IH]; simpl; intros st Hs.
  - exists st. split; [reflexivity | exact Hs].
  - destruct (step_absorbed_row st0 st r Hr Hs) as (st1 & Hstep & Hs1).
    rewrite Hstep. simpl. apply IH. exact Hs1.
Qed.

Lemma lower_title_of_counts (x y : summary) :
  show_counts x = show_counts y ->
  lower_title py (show_title x) = lower_title py (show_title y).
Proof. unfold show_counts. intros [= -> _ _ _]. reflexivity. Qed.

(** C6: aggregating a list of episode plays followed by the same list again
    gives, show by show and in the same order, the rows of the list aggregated
    once as far as the show, [unique_episodes_watched] and [episodes_partial]
    go (and raises exactly when aggregating the list once raises).  Nothing is
    stated about [avg_episode_percent]. *)
Theorem aggregate_twice_same_counts (rows : list row) :
  columns show_counts (aggregate_series py thr (rows ++ rows))
  = columns show_counts (aggregate_series py thr rows).
Proof.
  unfold aggregate_series, series_buckets. rewrite fold_rows_app.
  destruct (fold_rows (series_step py thr) [] rows) as [st1|] eqn:Hrun; simpl;
    [|reflexivity].
  destruct (loop_absorbs_rows rows [] st1 Hrun) as [_ Hall].
  destruct (loop_absorbed_rows rows st1 st1 Hall (same_shows_refl st1))
    as (st2 & Hrun2 & Hs).
  rewrite Hrun2. simpl. symmetry.
  apply (py_sort_columns _ _ show_counts lower_title_of_counts).
  apply same_shows_columns, Hs.
Qed.




End SeriesLoop.

(** ** Availability resolver *)

Section ResolverFacts.
Context (py : runtime) (call_api : string -> list (string * value) -> result value).

Lemma count_available_returns (key : string) :
  exists n, count_available_episodes py call_api key = Ok n.
Proof.
  unfold count_available_episodes.
  destruct (fast_path py call_api key) as [[n|]|]; simpl.
  - exists n. reflexivity.
  - destruct (fallback py call_api key) as [total [[]|]]; exists total; reflexivity.
  - destruct (fallback py call_api key) as [total [[]|]]; exists total; reflexivity.
Qed.

(** The loop stops at the first season that raises, with what it has added
    up to there. *)
Lemma season_loop_partial (pre post : list value) (s : value) (counts : list (option Z))
    (total : Z) :
  Forall2 (fun x c => season_count py call_api x = Ok c) pre counts ->
  season_count py call_api s = Raise ->
  season_loop py call_api (pre ++ s :: post) total = (total + counted counts, Raise).
Proof.
  intros Hpre Hs. revert total.
  induction Hpre as [|x c pre counts Hx Hpre IH]; intros total; simpl.
  - rewrite Hs. f_equal. lia.
  - rewrite Hx. destruct c as [n|]; rewrite IH; f_equal; simpl; lia.
Qed.

Lemma counted_nonneg (counts : list (option Z)) :
  Forall (fun c => 0 <= default 0 c) counts -> 0 <= counted counts.
Proof. induction 1; simpl; lia. Qed.

(** C7 (amended): [count_available_episodes] returns for every show key and
    every behaviour of the API.  When the fast path raises or finds no count
    field and a season of the fallback raises after some seasons went
    through, the result is the sum added up to there; it is at least 0 when
    none of the amounts added is negative. *)
Theorem count_available_best_effort (key : string) :
  (exists n, count_available_episodes py call_api key = Ok n) /\
  forall (pre post : list value) (s : value) (counts : list (option Z)),
    fast_path py call_api key = Raise \/ fast_path py call_api key = Ok None ->
    season_items call_api key = Ok (pre ++ s :: post) ->
    Forall2 (fun x c => season_count py call_api x = Ok c) pre counts ->
    season_count py call_api s = Raise ->
    count_available_episodes py call_api key = Ok (counted counts) /\
    (Forall (fun c => 0 <= default 0 c) counts -> 0 <= counted counts).
Proof.
  split; [apply count_available_returns|].
  intros pre post s counts Hfast Hitems Hpre Hs. split; [|apply counted_nonneg].
  unfold count_available_episodes, fallback. rewrite Hitems.
  rewrite (season_loop_partial pre post s counts 0 Hpre Hs).
  destruct Hfast as [-> | ->]; reflexivity.
Qed.

(** C8 (amended): [compute_available_after] keeps the show and its episode
    counts of every row and sets [available_episodes] to the resolved count;
    [percent_watched_show] is empty when that count is 0 or less, and is
    [round(unique_episodes_watched / available_episodes * 100, 2)] when it is
    positive. *)
Theorem percent_watched_show_filled (series_rows : list Series.summary) :
  Forall2 (fun x x' =>
             show_counts x' = show_counts x /\
             Series.available_episodes x'
             = Series.resolve_available py call_api (Series.show_rating_key x) /\
             (Series.available_episodes x' <= 0 ->
              Series.percent_watched_show x' = VStr "") /\
             (0 < Series.available_episodes x' ->
              Series.percent_watched_show x'
              = VFloat (round2 (py_truediv (Series.unique_episodes_watched x')
                                           (Series.available_episodes x') * 100))))
    series_rows (Series.compute_available_after py call_api series_rows).
Proof.
  unfold Series.compute_available_after.
  apply Forall2_fmap_r, Forall_Forall2_diag, Forall_forall.
  intros x _. simpl. split; [reflexivity|]. split; [reflexivity|].
  destruct (0 <? Series.resolve_available py call_api (Series.show_rating_key x)) eqn:E.
  - apply Z.ltb_lt in E. split; [lia | reflexivity].
  - apply Z.ltb_ge in E. split; [reflexivity | lia].
Qed.

End ResolverFacts.

(** C7 (as stated) fails: with a negative count reported for the first season
    and the second season unreadable, the partial sum returned is -3. *)
Lemma negative_partial_sum :
  fast_path example_runtime api_negative_season "1" = Raise /\
  season_items api_negative_season "1" = Ok [season "s1"; season "s2"] /\
  season_count example_runtime api_negative_season (season "s1") = Ok (Some (-3)) /\
  season_count example_runtime api_negative_season (season "s2") = Raise /\
  count_available_episodes example_runtime api_negative_season "1" = Ok (-3) /\
  (0 <=? -3) = false.
Proof. repeat split; vm_compute; reflexivity. Qed.

Lemma count_available_best_effort_witness :
  (fast_path example_runtime api_third_season_fails "1" = Raise \/
   fast_path example_runtime api_third_season_fails "1" = Ok None) /\
  season_items api_third_season_fails "1" = Ok ([season "s1"; season "s2"] ++ season "s3" :: []) /\
  Forall2 (fun x c => season_count example_runtime api_third_season_fails x = Ok c)
    [season "s1"; season "s2"] [Some 5; Some 4] /\
  season_count example_runtime api_third_season_fails (season "s3") = Raise /\
  count_available_episodes example_runtime api_third_season_fails "1" = Ok 9.
Proof.
  assert (H1 : fast_path example_runtime api_third_season_fails "1" = Raise \/
               fast_path example_runtime api_third_season_fails "1" = Ok None)
    by (left; vm_compute; reflexivity).
  assert (H2 : season_items api_third_season_fails "1"
               = Ok ([season "s1"; season "s2"] ++ season "s3" :: []))
    by (vm_compute; reflexivity).
  assert (H3 : Forall2 (fun x c => season_count example_runtime api_third_season_fails x = Ok c)
                 [season "s1"; season "s2"] [Some 5; Some 4])
    by (repeat constructor; vm_compute; reflexivity).
  assert (H4 : season_count example_runtime api_third_season_fails (season "s3") = Raise)
    by (vm_compute; reflexivity).
  repeat (split; [assumption|]).
  exact (proj1 (proj2 (count_available_best_effort example_runtime api_third_season_fails "1")
                  _ _ _ _ H1 H2 H3 H4)).
Defined.

(** C8 (as stated) fails: a resolved count of -4 is not 0, yet the percentage
    is left empty instead of round(2 / -4 * 100, 2) = -50.0. *)
Lemma negative_available_left_empty :
  availability <$> Series.compute_available_after example_runtime (api_leaf_count (-4)) [two_watched]
    = [(-4, VStr "")] /\
  round2 (py_truediv 2 (-4) * 100) = (-50)%float.
Proof. split; vm_compute; reflexivity. Qed.

(** The scenarios of the fast path and of a positive count. *)
Example fast_path_leaf_count :
  count_available_episodes example_runtime (api_leaf_count 10) "1" = Ok 10 /\
  availability <$> Series.compute_available_after example_runtime (api_leaf_count 10) [two_watched]
    = [(10, VFloat 20)].
Proof. split; vm_compute; reflexivity. Qed.


(** The scenario of the specification: episode A at 95%, A again at 40%, B
    without percent, in this order. *)
Example series_scenario (py : runtime) :
  columns (fun x => (episode_counts x, Series.avg_episode_percent x))
    (Series.aggregate_series py 85 [full_play; partial_play; untracked_play])
  = Ok [((2, 0), 67.5%float)].
Proof. vm_compute. reflexivity. Qed.

(** Two plays without episode key after a play of episode A at 40%: the row
    of the show still counts one partial episode and none watched, while its
    average is that of the two known percents and its first and last
    timestamps are those of the two keyless plays. *)
Example keyless_scenario :
  columns (fun x => (episode_counts x, Series.avg_episode_percent x,
                     Series.first_watched x, Series.last_watched x))
    (Series.aggregate_series example_runtime 85
       [dated_partial_play; keyless_play; late_keyless_play])
  = Ok [((0, 1), 67.5%float, "2024-01-02 03:04:05", "2024-01-09 20:00:00")].
Proof. vm_compute. reflexivity. Qed.

(** ** Movie aggregator *)

Lemma assoc_lookup_elem {A} (k : string) (a : A) (d : list (string * A)) :
  assoc_lookup k d = Some a -> a ∈ d.*2.
Proof.
  induction d as [|[k' a'] d IH]; simpl; [discriminate|].
  destruct (bool_decide (k' = k)).
  - intros [= ->]. apply list_elem_of_here.
  - intros H. apply list_elem_of_further, IH, H.
Qed.

Lemma assoc_store_Forall {A} (P : A -> Prop) (k : string) (a : A) (d : list (string * A)) :
  Forall P d.*2 -> P a -> Forall P (assoc_store k a d).*2.
Proof.
  intros Hd Ha. induction d as [|[k' a'] d IH]; simpl.
  - constructor; [exact Ha | constructor].
  - pose proof (Forall_inv Hd) as Hhd. pose proof (Forall_inv_tail Hd) as Htl.
    destruct (bool_decide (k' = k)); constructor; auto.
Qed.

Section SortFacts.
Context {A K : Type} (key : A -> result K) (lt : K -> K -> bool).

Lemma insert_by_perm (x : K * A) (l : list (K * A)) : insert_by lt x l ≡ₚ x :: l.
Proof.
  induction l as [|y l IH]; simpl; [reflexivity|].
  destruct (lt y.1 x.1); [|reflexivity].
  rewrite IH. apply Permutation_swap.
Qed.

Lemma sort_by_perm (l : list (K * A)) : sort_by lt l ≡ₚ l.
Proof.
  induction l as [|x l IH]; simpl; [reflexivity|].
  rewrite insert_by_perm, IH. reflexivity.
Qed.

Lemma keyed_elements (l : list A) (keyed : list (K * A)) :
  mapM (fun x => k ← key x; Ok (k, x)) l = Ok keyed -> keyed.*2 = l.
Proof.
  revert keyed. induction l as [|x l IH]; simpl; intros keyed.
  - intros [= <-]. reflexivity.
  - destruct (key x) as [k|]; simpl; [|discriminate].
    destruct (mapM _ l) as [ks|]; simpl; [|discriminate].
    intros [= <-]. csimpl. rewrite (IH ks eq_refl). reflexivity.
Qed.

(** A sort that returns gives back the elements it was given. *)
Lemma py_sort_perm (l out : list A) : py_sort key lt l = Ok out -> out ≡ₚ l.
Proof.
  unfold py_sort. destruct (mapM _ l) as [keyed|] eqn:Hk; simpl; [|discriminate].
  intros [= <-]. rewrite (sort_by_perm keyed). rewrite (keyed_elements l keyed Hk).
  reflexivity.
Qed.

(** A sort returns when every element has a key. *)
Lemma py_sort_returns (l : list A) :
  Forall (fun x => exists k, key x = Ok k) l -> exists out, py_sort key lt l = Ok out.
Proof.
  intros Hl. unfold py_sort.
  assert (exists keyed, mapM (fun x => k ← key x; Ok (k, x)) l = Ok keyed) as [keyed ->].
  { induction Hl as [|x l [k Hk] Hl [ks IH]]; simpl; [eexists; reflexivity|].
    rewrite Hk. simpl. rewrite IH. simpl. eexists. reflexivity. }
  simpl. eexists. reflexivity.
Qed.

End SortFacts.

Section MoviesFacts.
Import Movies.
Context (py : runtime) (thr : float).

(** What the loop keeps true of the entry of a movie that has only seen plays
    without percent, [n] of them so far. *)
Let untracked (n : nat) (entry : option summary) : Prop :=
  match entry with
  | None => n = 0%nat
  | Some b =>
      (0 < n)%nat /\ plays b = Z.of_nat n /\ max_percent b = 0%float /\
      avg_percent b = 0%float /\ last_percent b = None /\ completed_any b = true
  end.

Lemma step_untracked (k : string) (n : nat) (movies : list (string * summary)) (r : row) :
  (bucket_key py r = k -> _percent_from_row py r = None) ->
  untracked n (assoc_lookup k movies) ->
  untracked (n + (if bool_decide (bucket_key py r = k) then 1 else 0))
    (assoc_lookup k (movies_step py thr movies r)).
Proof.
  intros Hpct Hn. unfold movies_step. case_bool_decide as Hk.
  - rewrite Hk, assoc_lookup_store_eq. specialize (Hpct Hk).
    unfold untracked, update_bucket. rewrite Hpct. simpl.
    destruct (assoc_lookup k movies) as [b|]; simpl in *.
    + destruct Hn as (Hpos & Hplays & Hmax & Havg & Hlast & _).
      repeat split; try assumption; lia.
    + subst n. repeat split; try reflexivity; lia.
  - rewrite assoc_lookup_store_ne by exact Hk. rewrite Nat.add_0_r. exact Hn.
Qed.

Lemma loop_untracked (k : string) (rows : list row) (n : nat)
    (movies : list (string * summary)) :
  (forall r, r ∈ rows -> bucket_key py r = k -> _percent_from_row py r = None) ->
  untracked n (assoc_lookup k movies) ->
  untracked (n + length (filter (fun r => bucket_key py r = k) rows))
    (assoc_lookup k (foldl (movies_step py thr) movies rows)).
Proof.
  revert n movies. induction rows as [|r rows IH]; intros n movies Hpct Hn; simpl.
  - rewrite Nat.add_0_r. exact Hn.
  - assert (Hstep := step_untracked k n movies r
                       (Hpct r (list_elem_of_here r rows)) Hn).
    apply IH in Hstep; [|intros r' Hr'; apply Hpct, list_elem_of_further, Hr'].
    rewrite filter_cons. case_decide; simpl.
    + rewrite bool_decide_eq_true_2 in Hstep by assumption.
      replace (n + S (length (filter (fun r0 => bucket_key py r0 = k) rows)))%nat
        with (n + 1 + length (filter (fun r0 => bucket_key py r0 = k) rows))%nat by lia.
      exact Hstep.
    + rewrite bool_decide_eq_false_2 in Hstep by assumption.
      rewrite Nat.add_0_r in Hstep. exact Hstep.
Qed.

(** Entries whose title is text. *)
Let titled (b : summary) : Prop := exists s, movie_title b = VStr s.

Lemma loop_titled (rows : list row) (movies : list (string * summary)) :
  Forall (fun r => exists s, title_of r = VStr s) rows ->
  Forall titled movies.*2 ->
  Forall titled (foldl (movies_step py thr) movies rows).*2.
Proof.
  intros Hrows. revert movies.
  induction Hrows as [|r rows Hr Hrows IH]; intros movies Hm; simpl; [exact Hm|].
  apply IH. unfold movies_step. apply assoc_store_Forall; [exact Hm|].
  unfold titled, update_bucket; simpl.
  destruct (assoc_lookup (bucket_key py r) movies) as [b|] eqn:Hl; simpl; [|exact Hr].
  apply assoc_lookup_elem in Hl. rewrite Forall_forall in Hm. apply Hm, Hl.
Qed.

Lemma titled_sort_key (b : summary) : titled b -> exists k, sort_key py (finalize b) = Ok k.
Proof.
  intros [s Hs]. unfold sort_key, lower_title, py_or. simpl. rewrite Hs. simpl.
  destruct (str_nonempty s); simpl; eexists; reflexivity.
Qed.

(** C10: in any list of movie plays, a movie none of whose plays carries a
    percent gets a row that counts every one of its plays, has
    [completed_any] set, reports 0.0 for both [max_percent] and [avg_percent]
    and keeps [last_percent] absent.  The row is among those
    [aggregate_movies] returns, and the call returns when all titles are
    text. *)
Theorem untracked_movie_row (rows : list row) (k : string) :
  (exists r, r ∈ rows /\ bucket_key py r = k) ->
  (forall r, r ∈ rows -> bucket_key py r = k -> _percent_from_row py r = None) ->
  exists b,
    assoc_lookup k (movies_buckets py thr rows) = Some b /\
    plays (finalize b) = Z.of_nat (length (filter (fun r => bucket_key py r = k) rows)) /\
    completed_any (finalize b) = true /\
    max_percent (finalize b) = 0%float /\
    avg_percent (finalize b) = 0%float /\
    last_percent (finalize b) = None /\
    (forall out, aggregate_movies py thr rows = Ok out -> finalize b ∈ out) /\
    (Forall (fun r => exists s, title_of r = VStr s) rows ->
     exists out, aggregate_movies py thr rows = Ok out).
Proof.
  intros (r0 & Hin & Hk0) Hpct.
  pose proof (loop_untracked k rows 0 [] Hpct eq_refl) as Hrun.
  fold (movies_buckets py thr rows) in Hrun. simpl in Hrun.
  assert (Hpos : (0 < length (filter (fun r => bucket_key py r = k) rows))%nat).
  { assert (r0 ∈ filter (fun r => bucket_key py r = k) rows) as Hf
      by (apply list_elem_of_filter; split; assumption).
    destruct (filter _ rows); [inversion Hf | simpl; lia]. }
  destruct (assoc_lookup k (movies_buckets py thr rows)) as [b|] eqn:Hl;
    simpl in Hrun; [|lia].
  destruct Hrun as (_ & Hplays & Hmax & Havg & Hlast & Hdone).
  exists b. split; [reflexivity|]. simpl.
  rewrite Hplays, Hmax, Havg, Hlast, Hdone.
  repeat (split; [reflexivity|]). split.
  - intros out Hout. apply py_sort_perm in Hout. rewrite Hout.
    apply list_elem_of_fmap_2, (assoc_lookup_elem k), Hl.
  - intros Htitles. apply py_sort_returns, Forall_fmap.
    eapply Forall_impl; [apply (loop_titled rows [] Htitles); constructor|].
    intros b' Hb'. apply titled_sort_key, Hb'.
Qed.

End MoviesFacts.

Lemma untracked_movie_row_witness :
  exists x,
    Movies.aggregate_movies example_runtime 85
      [movie_play "2024-01-01 20:00:00"; movie_play "2024-02-01 20:00:00"] = Ok [x] /\
    Movies.plays x = 2 /\ Movies.completed_any x = true /\
    Movies.max_percent x = 0%float /\ Movies.avg_percent x = 0%float /\
    Movies.last_percent x = None.
Proof.
  destruct (untracked_movie_row example_runtime 85
              [movie_play "2024-01-01 20:00:00"; movie_play "2024-02-01 20:00:00"] "m1")
    as (b & Hl & Hplays & Hdone & Hmax & Havg & Hlast & _ & _).
  - exists (movie_play "2024-01-01 20:00:00"). split; [apply list_elem_of_here|].
    vm_compute. reflexivity.
  - intros r Hr _. apply list_elem_of_In in Hr. simpl in Hr.
    destruct Hr as [<-|[<-|[]]]; vm_compute; reflexivity.
  - exists (Movies.finalize b).
    repeat split; try assumption.
    vm_compute in Hl. injection Hl as <-. vm_compute. reflexivity.
Defined.

(** The movie scenario of the specification: two plays of "m1", at 90% and
    at 30%. *)
Example movie_scenario (py : runtime) :
  columns (fun x => (Movies.plays x, Movies.max_percent x, Movies.avg_percent x,
                     Movies.completed_any x))
    (Movies.aggregate_movies py 85
       [<["percent_complete" := VInt 90]> (movie_play "2024-01-01 20:00:00");
        <["percent_complete" := VInt 30]> (movie_play "2024-02-01 20:00:00")])
  = Ok [(2, 90%float, 60%float, true)].
Proof. vm_compute. reflexivity. Qed.

(** ** Order on text *)

Lemma ascii_compare_refl (a : ascii) : Ascii.compare a a = Eq.
Proof. unfold Ascii.compare. apply N.compare_refl. Qed.

Lemma ascii_compare_lt_trans (a b c : ascii) :
  Ascii.compare a b = Lt -> Ascii.compare b c = Lt -> Ascii.compare a c = Lt.
Proof.
  unfold Ascii.compare. rewrite !N.compare_lt_iff. apply N.lt_trans.
Qed.

Lemma string_compare_refl (a : string) : String.compare a a = Eq.
Proof. induction a as [|c a IH]; simpl; [reflexivity|]. rewrite ascii_compare_refl. exact IH. Qed.

Lemma string_compare_lt_trans (a b c : string) :
  String.compare a b = Lt -> String.compare b c = Lt -> String.compare a c = Lt.
Proof.
  revert b c. induction a as [|x a IH]; intros [|y b] [|z c]; simpl; try discriminate;
    try reflexivity.
  destruct (Ascii.compare x y) eqn:Hxy; try discriminate.
  - apply Ascii.compare_eq_iff in Hxy. subst y.
    destruct (Ascii.compare x z); try discriminate; [apply IH | reflexivity].
  - intros _. destruct (Ascii.compare y z) eqn:Hyz; try discriminate.
    + apply Ascii.compare_eq_iff in Hyz. subst z. rewrite Hxy. reflexivity.
    + intros _. rewrite (ascii_compare_lt_trans x y z Hxy Hyz). reflexivity.
Qed.

Lemma string_ltb_leb (a b : string) : String.ltb b a = false <-> String.leb a b = true.
Proof.
  unfold String.ltb, String.leb. rewrite (String.compare_antisym a b).
  destruct (String.compare b a); simpl; split; intros H; first [reflexivity | discriminate H].
Qed.

Lemma string_leb_refl (a : string) : String.leb a a = true.
Proof. unfold String.leb. rewrite string_compare_refl. reflexivity. Qed.

Lemma string_leb_trans (a b c : string) :
  String.leb a b = true -> String.leb b c = true -> String.leb a c = true.
Proof.
  unfold String.leb.
  destruct (String.compare a b) eqn:Hab; try discriminate; intros _.
  - apply String.compare_eq_iff in Hab. subst b. auto.
  - destruct (String.compare b c) eqn:Hbc; try discriminate; intros _.
    + apply String.compare_eq_iff in Hbc. subst c. rewrite Hab. reflexivity.
    + rewrite (string_compare_lt_trans a b c Hab Hbc). reflexivity.
Qed.

Lemma string_ltb_asym (a b : string) : String.ltb a b = true -> String.ltb b a = false.
Proof.
  unfold String.ltb. rewrite (String.compare_antisym b a).
  destruct (String.compare a b); simpl; intros H; first [reflexivity | discriminate H].
Qed.

(** ** Sorted output *)

Section SortedFacts.
Context {A K : Type} (key : A -> result K) (lt : K -> K -> bool).
Hypothesis lt_asym : forall a b, lt a b = true -> lt b a = false.
Hypothesis ge_trans : forall a b c, lt b a = false -> lt c b = false -> lt c a = false.

(** [a] does not come after [b]. *)
Let before (a b : K * A) : Prop := lt b.1 a.1 = false.

Lemma insert_by_sorted (x : K * A) (l : list (K * A)) :
  StronglySorted before l -> StronglySorted before (insert_by lt x l).
Proof.
  induction 1 as [|y l Hl IH Hy]; simpl.
  - constructor; constructor.
  - destruct (lt y.1 x.1) eqn:Hyx.
    + constructor; [exact IH|].
      rewrite (insert_by_perm lt x l). constructor; [|exact Hy].
      apply lt_asym, Hyx.
    + constructor; [constructor; assumption|].
      constructor; [exact Hyx|].
      apply (Forall_impl _ _ _ Hy). intros z Hz. unfold before in *.
      apply (ge_trans x.1 y.1 z.1); assumption.
Qed.

Lemma sort_by_sorted (l : list (K * A)) : StronglySorted before (sort_by lt l).
Proof.
  induction l as [|x l IH]; simpl; [constructor | apply insert_by_sorted, IH].
Qed.

Lemma keyed_keys (l : list A) (keyed : list (K * A)) :
  mapM (fun x => k ← key x; Ok (k, x)) l = Ok keyed ->
  Forall (fun p => key p.2 = Ok p.1) keyed.
Proof.
  revert keyed. induction l as [|x l IH]; simpl; intros keyed.
  - intros [= <-]. constructor.
  - destruct (key x) as [k|] eqn:Hk; simpl; [|discriminate].
    destruct (mapM _ l) as [ks|]; simpl; [|discriminate].
    intros [= <-]. constructor; [exact Hk | apply IH; reflexivity].
Qed.

Lemma mapM_keys (keyed : list (K * A)) :
  Forall (fun p => key p.2 = Ok p.1) keyed -> mapM key keyed.*2 = Ok keyed.*1.
Proof.
  induction 1 as [|p keyed Hp _ IH]; csimpl; [reflexivity|].
  rewrite Hp. simpl. rewrite IH. reflexivity.
Qed.

(** The keys of the elements a sort returns, in the order returned, never go
    down. *)
Lemma py_sort_sorted (l out : list A) :
  py_sort key lt l = Ok out ->
  exists keys, mapM key out = Ok keys /\
               StronglySorted (fun a b => lt b a = false) keys.
Proof.
  unfold py_sort. destruct (mapM _ l) as [keyed|] eqn:Hk; simpl; [|discriminate].
  intros [= <-]. exists (sort_by lt keyed).*1. split.
  - apply mapM_keys. rewrite (sort_by_perm lt keyed). apply (keyed_keys l), Hk.
  - pose proof (sort_by_sorted keyed) as Hs.
    induction Hs as [|p rest _ IH Hp]; csimpl; constructor; [exact IH|].
    apply Forall_fmap. exact Hp.
Qed.

End SortedFacts.

Lemma StronglySorted_weaken {A} (R R' : A -> A -> Prop) (l : list A) :
  (forall a b, R a b -> R' a b) -> StronglySorted R l -> StronglySorted R' l.
Proof.
  intros HR. induction 1 as [|x l _ IH Hx]; constructor; [exact IH|].
  apply (Forall_impl _ _ _ Hx). intros y. apply HR.
Qed.

Lemma string_ge_trans (a b c : string) :
  String.ltb b a = false -> String.ltb c b = false -> String.ltb c a = false.
Proof. rewrite !string_ltb_leb. apply string_leb_trans. Qed.

(** The order of the movie sort key, read as "not after". *)
Lemma pair_ltb_false (a b : string * string) :
  Movies.pair_ltb b a = false <->
  String.leb a.1 b.1 = true /\ (a.1 = b.1 -> String.leb a.2 b.2 = true).
Proof.
  unfold Movies.pair_ltb. rewrite orb_false_iff, andb_false_iff, !string_ltb_leb.
  rewrite String.eqb_neq. split.
  - intros [H1 [Hne | H2]]; (split; [exact H1|]); intros He; [congruence | exact H2].
  - intros [H1 H2]. split; [exact H1|].
    destruct (String.eqb_spec b.1 a.1) as [He | Hne]; [right; auto | left; exact Hne].
Qed.

Lemma pair_ltb_asym (a b : string * string) :
  Movies.pair_ltb a b = true -> Movies.pair_ltb b a = false.
Proof.
  intros H. apply pair_ltb_false. unfold Movies.pair_ltb in H.
  apply orb_true_iff in H as [H | H].
  - pose proof (string_ltb_asym _ _ H) as H'. apply string_ltb_leb in H'.
    split; [exact H'|]. intros He. rewrite He in H. unfold String.ltb in H.
    rewrite string_compare_refl in H. discriminate H.
  - apply andb_true_iff in H as [He H]. apply String.eqb_eq in He.
    split; [rewrite He; apply string_leb_refl|]. intros _.
    apply string_ltb_leb, string_ltb_asym, H.
Qed.

Lemma pair_ge_trans (a b c : string * string) :
  Movies.pair_ltb b a = false -> Movies.pair_ltb c b = false -> Movies.pair_ltb c a = false.
Proof.
  rewrite !pair_ltb_false. intros [Hab Hab'] [Hbc Hbc']. split.
  - apply (string_leb_trans _ _ _ Hab Hbc).
  - intros Hac. rewrite <- Hac in Hbc.
    pose proof (String.leb_antisym _ _ Hab Hbc) as He.
    apply (string_leb_trans _ b.2); [apply Hab', He | apply Hbc'; congruence].
Qed.

(** X1: the rows [aggregate_series] returns are in the order of their
    lower-cased titles: going down the list, the lower-cased title never
    decreases in the order of text. *)
Theorem aggregate_series_sorted (py : runtime) (thr : float) (rows : list row)
    (out : list Series.summary) :
  Series.aggregate_series py thr rows = Ok out ->
  exists titles,
    mapM (fun x => lower_title py (Series.show_title x)) out = Ok titles /\
    StronglySorted (fun a b => String.leb a b = true) titles.
Proof.
  unfold Series.aggregate_series.
  destruct (Series.series_buckets py thr rows) as [st|]; simpl; [|discriminate].
  intros Hsort.
  destruct (py_sort_sorted _ String.ltb string_ltb_asym string_ge_trans _ _ Hsort)
    as (titles & Hkeys & Hsorted).
  exists titles. split; [exact Hkeys|].
  apply (StronglySorted_weaken _ _ _ (fun a b => proj1 (string_ltb_leb a b)) Hsorted).
Qed.

(** X2: the rows [aggregate_movies] returns are in the order of the pair
    (lower-cased title, year as text): the first component never decreases,
    and among equal first components the second never decreases. *)
Theorem aggregate_movies_sorted (py : runtime) (thr : float) (rows : list row)
    (out : list Movies.summary) :
  Movies.aggregate_movies py thr rows = Ok out ->
  exists keys,
    mapM (Movies.sort_key py) out = Ok keys /\
    StronglySorted (fun a b => String.leb a.1 b.1 = true /\
                               (a.1 = b.1 -> String.leb a.2 b.2 = true)) keys.
Proof.
  unfold Movies.aggregate_movies. intros Hsort.
  destruct (py_sort_sorted _ Movies.pair_ltb pair_ltb_asym pair_ge_trans _ _ Hsort)
    as (keys & Hkeys & Hsorted).
  exists keys. split; [exact Hkeys|].
  apply (StronglySorted_weaken _ _ _ (fun a b => proj1 (pair_ltb_false a b)) Hsorted).
Qed.

(** ** Series aggregator: one show at a time *)

Section ShowEntries.
Import Series.
Context (py : runtime) (thr : float).

Lemma in_show_key (k : string) (r : row) : in_show py k r = true <-> bucket_key py r = Ok k.
Proof.
  unfold in_show. destruct (bucket_key py r) as [k'|]; [|split; discriminate].
  rewrite String.eqb_eq. split; congruence.
Qed.

Lemma series_step_entry (k : string) (st st' : list (string * bucket)) (r : row) :
  series_step py thr st r = Ok st' ->
  assoc_lookup k st' = show_entry_after py thr k (assoc_lookup k st) [r].
Proof.
  unfold series_step, show_entry_after, in_show. simpl.
  destruct (bucket_key py r) as [k'|] eqn:Hk; simpl; [|discriminate].
  intros [= <-]. destruct (String.eqb_spec k' k) as [->|Hne].
  - apply assoc_lookup_store_eq.
  - apply assoc_lookup_store_ne, Hne.
Qed.

(** The entry of a show follows from its own plays. *)
Lemma series_loop_entry (k : string) (rows : list row) (st st' : list (string * bucket)) :
  fold_rows (series_step py thr) st rows = Ok st' ->
  assoc_lookup k st' = show_entry_after py thr k (assoc_lookup k st) rows.
Proof.
  revert st. induction rows as [|r rows IH]; simpl; intros st.
  - intros [= <-]. reflexivity.
  - destruct (series_step py thr st r) as [st1|] eqn:Hstep; simpl; [|discriminate].
    intros Hrest. rewrite (IH st1 Hrest), (series_step_entry k st st1 r Hstep).
    reflexivity.
Qed.

(** The loop gets through exactly when every row has a key. *)
Lemma series_loop_returns (rows : list row) (st : list (string * bucket)) :
  (exists st', fold_rows (series_step py thr) st rows = Ok st') <->
  Forall (fun r => exists k, bucket_key py r = Ok k) rows.
Proof.
  revert st. induction rows as [|r rows IH]; intros st; simpl.
  - split; [constructor | eexists; reflexivity].
  - split.
    + intros [st' H].
      destruct (series_step py thr st r) as [st1|] eqn:Hstep; simpl in H; [|discriminate].
      constructor; [|apply (IH st1); eauto].
      unfold series_step in Hstep. destruct (bucket_key py r) as [k|]; [eauto | discriminate].
    + intros H. destruct (Forall_inv H) as [k Hk].
      destruct (series_step py thr st r) as [st1|] eqn:Hstep;
        [|unfold series_step in Hstep; rewrite Hk in Hstep; discriminate Hstep].
      simpl. apply IH, (Forall_inv_tail H).
Qed.

Lemma show_entry_after_app (k : string) (o : option bucket) (l1 l2 : list row) :
  show_entry_after py thr k o (l1 ++ l2)
  = show_entry_after py thr k (show_entry_after py thr k o l1) l2.
Proof. unfold show_entry_after. apply foldl_app. Qed.

Lemma show_entry_after_own (k : string) (o : option bucket) (rows : list row) :
  show_entry_after py thr k o (List.filter (in_show py k) rows)
  = show_entry_after py thr k o rows.
Proof.
  revert o. induction rows as [|r rows IH]; intros o; simpl; [reflexivity|].
  destruct (in_show py k r) eqn:Hr; simpl; rewrite ?Hr; apply IH.
Qed.

(** X3: shows are aggregated independently of each other: when the loop gets
    through a list of plays, it gets through the plays of any one show taken
    alone, and the entry of that show (so every column of its row) is the
    same in both runs. *)
Theorem show_entry_from_own_plays (rows : list row) (k : string)
    (st : list (string * bucket)) :
  series_buckets py thr rows = Ok st ->
  exists st_k,
    series_buckets py thr (List.filter (in_show py k) rows) = Ok st_k /\
    assoc_lookup k st_k = assoc_lookup k st.
Proof.
  intros Hrun. unfold series_buckets in *.
  assert (Hall : Forall (fun r => exists k, bucket_key py r = Ok k) rows)
    by (apply (series_loop_returns rows []); eauto).
  destruct (proj2 (series_loop_returns (List.filter (in_show py k) rows) [])) as [st_k Hk].
  { rewrite Forall_forall in Hall. apply Forall_forall. intros r Hr.
    apply list_elem_of_In, List.filter_In in Hr as [Hr _].
    apply Hall, list_elem_of_In, Hr. }
  exists st_k. split; [exact Hk|].
  rewrite (series_loop_entry k _ _ _ Hk), (series_loop_entry k _ _ _ Hrun).
  apply show_entry_after_own.
Qed.

End ShowEntries.

(** ** Series aggregator: what the two sets hold *)

Lemma str_nonempty_ne (s : string) : str_nonempty s = true <-> s <> "".
Proof. destruct s; simpl; split; intros H; congruence. Qed.

Section ShowSets.
Import Series.
Context (py : runtime) (thr : float) (k : string).

(** The watched set, and the set of all episodes counted, of an entry that
    may not be there yet. *)
Let watched_of (o : option bucket) : gset string :=
  match o with
  | Some b => _seen_watched b
  | None => ∅
  end.

Let counted_of (o : option bucket) : gset string :=
  match o with
  | Some b => _seen_watched b ∪ _seen_partial b
  | None => ∅
  end.

(** The play [r] is a watched play of episode [e]; a play of episode [e]. *)
Let watched_play (e : string) (r : row) : Prop :=
  in_show py k r = true /\ ep_key_of py r = e /\ str_nonempty e = true /\
  watched thr (_percent_from_row py r) = true.

Let keyed_play (e : string) (r : row) : Prop :=
  in_show py k r = true /\ ep_key_of py r = e /\ str_nonempty e = true.

Lemma step_watched_of (o : option bucket) (r : row) (e : string) :
  in_show py k r = true ->
  e ∈ watched_of (Some (update_bucket py thr r (default (new_bucket py r) o)))
  <-> e ∈ watched_of o \/ watched_play e r.
Proof.
  intros Hr. unfold watched_play, watched_of, update_bucket, update_seen.
  cbn [_seen_watched].
  assert (HW : _seen_watched (default (new_bucket py r) o) = watched_of o)
    by (destruct o; reflexivity).
  rewrite HW. unfold watched_of.
  destruct (str_nonempty (ep_key_of py r)) eqn:Hne;
    destruct (watched thr (_percent_from_row py r)) eqn:Hw; simpl;
    try destruct (bool_decide _); simpl.
  all: split; [intros H | intros [H | (_ & <- & H1 & H2)]];
    try (rewrite Hne in *); try congruence; try set_solver.
  all: apply elem_of_union in H as [H | H]; [|auto].
  all: apply elem_of_singleton in H; subst e; right; auto.
Qed.

Lemma step_counted_of (o : option bucket) (r : row) (e : string) :
  in_show py k r = true ->
  e ∈ counted_of (Some (update_bucket py thr r (default (new_bucket py r) o)))
  <-> e ∈ counted_of o \/ keyed_play e r.
Proof.
  intros Hr. unfold keyed_play, counted_of, update_bucket, update_seen.
  cbn [_seen_watched _seen_partial].
  assert (HC : _seen_watched (default (new_bucket py r) o)
               ∪ _seen_partial (default (new_bucket py r) o) = counted_of o)
    by (destruct o; [reflexivity | simpl; set_solver]).
  revert HC. unfold counted_of.
  generalize (_seen_watched (default (new_bucket py r) o)) as W.
  generalize (_seen_partial (default (new_bucket py r) o)) as P. intros P W HC.
  rewrite <- HC.
  destruct (str_nonempty (ep_key_of py r)) eqn:Hne;
    destruct (watched thr (_percent_from_row py r)) eqn:Hw; simpl;
    try (destruct (bool_decide (ep_key_of py r ∈ W)) eqn:Hin; simpl;
         [apply bool_decide_eq_true_1 in Hin|]).
  all: split; [intros H | intros [H | (_ & <- & H1)]];
    try (rewrite Hne in *); try congruence; try set_solver.
  all: assert (He : e = ep_key_of py r \/ e ∈ W ∪ P) by set_solver.
  all: destruct He as [-> | He]; [right; auto | left; exact He].
Qed.

Lemma loop_watched_of (rows : list row) (o : option bucket) (e : string) :
  e ∈ watched_of (show_entry_after py thr k o rows)
  <-> e ∈ watched_of o \/ exists r, r ∈ rows /\ watched_play e r.
Proof.
  revert o. induction rows as [|r rows IH]; intros o.
  - simpl. split; [auto | intros [H | (r & Hr & _)]; [exact H | inversion Hr]].
  - change (show_entry_after py thr k o (r :: rows))
      with (show_entry_after py thr k
              (if in_show py k r
               then Some (update_bucket py thr r (default (new_bucket py r) o)) else o) rows).
    rewrite IH. destruct (in_show py k r) eqn:Hr.
    + rewrite (step_watched_of o r e Hr). split.
      * intros [[H | H] | (r' & Hr' & H)]; [auto | right | right].
        -- exists r. split; [apply list_elem_of_here | exact H].
        -- exists r'. split; [apply list_elem_of_further, Hr' | exact H].
      * intros [H | (r' & Hr' & H)]; [auto|].
        apply elem_of_cons in Hr' as [-> | Hr']; [auto | right; eauto].
    + split.
      * intros [H | (r' & Hr' & H)]; [auto | right].
        exists r'. split; [apply list_elem_of_further, Hr' | exact H].
      * intros [H | (r' & Hr' & H)]; [auto|].
        apply elem_of_cons in Hr' as [-> | Hr']; [|right; eauto].
        destruct H as (H & _). congruence.
Qed.

Lemma loop_counted_of (rows : list row) (o : option bucket) (e : string) :
  e ∈ counted_of (show_entry_after py thr k o rows)
  <-> e ∈ counted_of o \/ exists r, r ∈ rows /\ keyed_play e r.
Proof.
  revert o. induction rows as [|r rows IH]; intros o.
  - simpl. split; [auto | intros [H | (r & Hr & _)]; [exact H | inversion Hr]].
  - change (show_entry_after py thr k o (r :: rows))
      with (show_entry_after py thr k
              (if in_show py k r
               then Some (update_bucket py thr r (default (new_bucket py r) o)) else o) rows).
    rewrite IH. destruct (in_show py k r) eqn:Hr.
    + rewrite (step_counted_of o r e Hr). split.
      * intros [[H | H] | (r' & Hr' & H)]; [auto | right | right].
        -- exists r. split; [apply list_elem_of_here | exact H].
        -- exists r'. split; [apply list_elem_of_further, Hr' | exact H].
      * intros [H | (r' & Hr' & H)]; [auto|].
        apply elem_of_cons in Hr' as [-> | Hr']; [auto | right; eauto].
    + split.
      * intros [H | (r' & Hr' & H)]; [auto | right].
        exists r'. split; [apply list_elem_of_further, Hr' | exact H].
      * intros [H | (r' & Hr' & H)]; [auto|].
        apply elem_of_cons in Hr' as [-> | Hr']; [|right; eauto].
        destruct H as (H & _). congruence.
Qed.

Lemma loop_entry_some (rows : list row) (o : option bucket) :
  is_Some (show_entry_after py thr k o rows)
  <-> is_Some o \/ exists r, r ∈ rows /\ in_show py k r = true.
Proof.
  revert o. induction rows as [|r rows IH]; intros o.
  - simpl. split; [auto | intros [H | (r & Hr & _)]; [exact H | inversion Hr]].
  - change (show_entry_after py thr k o (r :: rows))
      with (show_entry_after py thr k
              (if in_show py k r
               then Some (update_bucket py thr r (default (new_bucket py r) o)) else o) rows).
    rewrite IH. destruct (in_show py k r) eqn:Hr.
    + split; [intros _; right; exists r; split; [apply list_elem_of_here | exact Hr]|].
      intros _. left. eauto.
    + split.
      * intros [H | (r' & Hr' & H)]; [auto | right].
        exists r'. split; [apply list_elem_of_further, Hr' | exact H].
      * intros [H | (r' & Hr' & H)]; [auto|].
        apply elem_of_cons in Hr' as [-> | Hr']; [congruence | right; eauto].
Qed.

(** X4: the watched set of a show holds exactly the episode keys of its
    plays that have a key and count as watched (no percent, or a percent at
    or above the threshold); [unique_episodes_watched] is the size of that
    set. *)
Theorem watched_set_members (rows : list row) (st : list (string * bucket)) (b : bucket) :
  series_buckets py thr rows = Ok st ->
  assoc_lookup k st = Some b ->
  (forall e, e ∈ _seen_watched b <->
             exists r, r ∈ rows /\ bucket_key py r = Ok k /\ ep_key_of py r = e /\
                       e <> "" /\ watched thr (_percent_from_row py r) = true) /\
  unique_episodes_watched (finalize b) = Z.of_nat (size (_seen_watched b)).
Proof.
  intros Hrun Hb. split; [|reflexivity]. intros e.
  pose proof (series_loop_entry py thr k rows [] st Hrun) as Hentry.
  rewrite Hb in Hentry. simpl in Hentry.
  pose proof (loop_watched_of rows None e) as Hw. rewrite <- Hentry in Hw.
  simpl in Hw. rewrite Hw. unfold watched_play. split.
  - intros [H | (r & Hr & H1 & H2 & H3 & H4)]; [set_solver|].
    exists r. rewrite <- in_show_key, <- str_nonempty_ne. auto.
  - intros (r & Hr & H1 & H2 & H3 & H4). right. exists r.
    rewrite in_show_key, str_nonempty_ne. auto.
Qed.

(** X5: every episode key played in a show is counted at least once: the
    union of the watched set and the partial set is the set of the non-empty
    episode keys of the show's plays. *)
Theorem counted_set_members (rows : list row) (st : list (string * bucket)) (b : bucket) :
  series_buckets py thr rows = Ok st ->
  assoc_lookup k st = Some b ->
  forall e, e ∈ _seen_watched b ∪ _seen_partial b <->
            exists r, r ∈ rows /\ bucket_key py r = Ok k /\ ep_key_of py r = e /\ e <> "".
Proof.
  intros Hrun Hb e.
  pose proof (series_loop_entry py thr k rows [] st Hrun) as Hentry.
  rewrite Hb in Hentry. simpl in Hentry.
  pose proof (loop_counted_of rows None e) as Hc. rewrite <- Hentry in Hc.
  simpl in Hc. rewrite Hc. unfold keyed_play. split.
  - intros [H | (r & Hr & H1 & H2 & H3)]; [set_solver|].
    exists r. rewrite <- in_show_key, <- str_nonempty_ne. auto.
  - intros (r & Hr & H1 & H2 & H3). right. exists r.
    rewrite in_show_key, str_nonempty_ne. auto.
Qed.

End ShowSets.

Section ShowOrder.
Import Series.
Context (py : runtime) (thr : float).

(** X6: the order of the plays does not change which episodes a show counts
    as watched: for any reordering of a list the loop gets through, it gets
    through the reordered list, every show is there again, with the same
    watched set (so the same [unique_episodes_watched]) and the same set of
    episodes counted at all. *)
Theorem watched_set_order_free (rows rows' : list row) (st : list (string * bucket)) :
  rows ≡ₚ rows' ->
  series_buckets py thr rows = Ok st ->
  exists st',
    series_buckets py thr rows' = Ok st' /\
    forall k b,
      assoc_lookup k st = Some b ->
      exists b',
        assoc_lookup k st' = Some b' /\
        _seen_watched b' = _seen_watched b /\
        unique_episodes_watched (finalize b') = unique_episodes_watched (finalize b) /\
        _seen_watched b' ∪ _seen_partial b' = _seen_watched b ∪ _seen_partial b.
Proof.
  intros Hperm Hrun. unfold series_buckets in *.
  destruct (proj2 (series_loop_returns py thr rows' [])) as [st' Hrun'].
  { assert (Hall : Forall (fun r => exists k, bucket_key py r = Ok k) rows)
      by (apply (series_loop_returns py thr rows []); eauto).
    rewrite Forall_forall in Hall. apply Forall_forall. intros r Hr.
    apply Hall. rewrite Hperm. exact Hr. }
  exists st'. split; [exact Hrun'|]. intros k b Hb.
  pose proof (series_loop_entry py thr k rows [] st Hrun) as He.
  pose proof (series_loop_entry py thr k rows' [] st' Hrun') as He'.
  simpl in He, He'. rewrite Hb in He.
  assert (Hsome : is_Some (assoc_lookup k st')).
  { rewrite He'. apply loop_entry_some.
    assert (H : is_Some (show_entry_after py thr k None rows)) by (rewrite <- He; eauto).
    apply loop_entry_some in H as [[? H] | (r & Hr & Hin)]; [discriminate H|].
    right. exists r. split; [rewrite <- Hperm; exact Hr | exact Hin]. }
  destruct Hsome as [b' Hb']. exists b'. split; [exact Hb'|].
  rewrite Hb' in He'.
  assert (HW : _seen_watched b' = _seen_watched b).
  { apply set_eq. intros e.
    pose proof (loop_watched_of py thr k rows None e) as H.
    pose proof (loop_watched_of py thr k rows' None e) as H'.
    rewrite <- He in H. rewrite <- He' in H'. simpl in H, H'. rewrite H, H'.
    split; (intros [Hf | (r & Hr & Hp)]; [apply elem_of_empty in Hf; destruct Hf|]);
      right; exists r; (split; [|exact Hp]).
    - rewrite Hperm. exact Hr.
    - rewrite <- Hperm. exact Hr. }
  split; [exact HW|]. split; [simpl; rewrite HW; reflexivity|].
  apply set_eq. intros e.
  pose proof (loop_counted_of py thr k rows None e) as H.
  pose proof (loop_counted_of py thr k rows' None e) as H'.
  rewrite <- He in H. rewrite <- He' in H'. simpl in H, H'. rewrite H, H'.
  split; (intros [Hf | (r & Hr & Hp)]; [apply elem_of_empty in Hf; destruct Hf|]);
    right; exists r; (split; [|exact Hp]).
  - rewrite Hperm. exact Hr.
  - rewrite <- Hperm. exact Hr.
Qed.

Lemma entry_keeps_title (k : string) (rows : list row) (b0 : bucket) :
  exists b, show_entry_after py thr k (Some b0) rows = Some b /\
            b_show_title b = b_show_title b0 /\
            b_show_rating_key b = b_show_rating_key b0.
Proof.
  revert b0. induction rows as [|r rows IH]; intros b0; simpl; [eauto|].
  destruct (in_show py k r); [|apply IH].
  destruct (IH (update_bucket py thr r b0)) as (b & Hb & Ht & Hk).
  exists b. split; [exact Hb|]. simpl in Ht, Hk. auto.
Qed.

(** X7: a show's row carries the title and the show key of the first play of
    that show in the list; later plays of the show never change them. *)
Theorem show_title_from_first_play (rows : list row) (k : string)
    (st : list (string * bucket)) (b : bucket) :
  series_buckets py thr rows = Ok st ->
  assoc_lookup k st = Some b ->
  exists pre r post,
    rows = pre ++ r :: post /\
    Forall (fun r' => bucket_key py r' <> Ok k) pre /\
    bucket_key py r = Ok k /\
    b_show_title b = show_title_of r /\
    b_show_rating_key b = show_key_of py r.
Proof.
  intros Hrun Hb.
  pose proof (series_loop_entry py thr k rows [] st Hrun) as He.
  rewrite Hb in He. simpl in He. clear Hrun Hb. revert He.
  induction rows as [|r rows IH]; simpl; [discriminate|].
  destruct (in_show py k r) eqn:Hr.
  - intros He. exists [], r, rows. split; [reflexivity|]. split; [constructor|].
    split; [apply in_show_key, Hr|].
    destruct (entry_keeps_title k rows (update_bucket py thr r (new_bucket py r)))
      as (b1 & Hb1 & Ht & Hk).
    fold (show_entry_after py thr k
            (Some (update_bucket py thr r (new_bucket py r))) rows) in He.
    rewrite Hb1 in He. injection He as ->. simpl in Ht, Hk. auto.
  - intros He. destruct (IH He) as (pre & r1 & post & -> & Hpre & Hk & Ht).
    exists (r :: pre), r1, post. split; [reflexivity|]. split; [|auto].
    constructor; [|exact Hpre]. rewrite <- in_show_key. congruence.
Qed.

End ShowOrder.

(** ** First and last timestamps *)

Lemma earliest_spec (t cur : string) :
  t <> "" ->
  earliest t cur = (if negb (str_nonempty cur) || String.ltb t cur then t else cur).
Proof. intros Ht. unfold earliest. apply str_nonempty_ne in Ht. rewrite Ht. reflexivity. Qed.

Lemma latest_spec (t cur : string) :
  t <> "" ->
  latest t cur = (if negb (str_nonempty cur) || String.ltb cur t then t else cur).
Proof. intros Ht. unfold latest. apply str_nonempty_ne in Ht. rewrite Ht. reflexivity. Qed.

Lemma string_ltb_to_leb (a b : string) : String.ltb a b = true -> String.leb a b = true.
Proof. intros H. apply string_ltb_leb, string_ltb_asym, H. Qed.

(** The range kept by the loop over a list of timestamps: it bounds every
    non-empty timestamp, and its ends are timestamps of the list unless all
    of them are empty. *)
Lemma stamps_range (ts : list string) :
  let range := foldl stamp ("", "") ts in
  Forall (fun t => t <> "" -> String.leb range.1 t = true /\ String.leb t range.2 = true) ts /\
  ((range = ("", "") /\ Forall (fun t => t = "") ts) \/
   (range.1 <> "" /\ range.2 <> "" /\ range.1 ∈ ts /\ range.2 ∈ ts)).
Proof.
  induction ts as [|t ts IH] using rev_ind; simpl.
  - split; [constructor | left; split; [reflexivity | constructor]].
  - rewrite foldl_app. simpl. destruct (foldl stamp ("", "") ts) as [f l]. simpl in IH.
    destruct IH as [Hb Hends]. unfold stamp. simpl.
    destruct (String.eqb_spec t "") as [-> | Ht].
    { simpl. split.
      - apply Forall_app. split; [exact Hb | constructor; [congruence | constructor]].
      - destruct Hends as [[He Hall] | (H1 & H2 & H3 & H4)].
        + left. split; [exact He|]. apply Forall_app. split; [exact Hall | repeat constructor].
        + right. rewrite !elem_of_app. auto. }
    rewrite (earliest_spec t f Ht), (latest_spec t l Ht).
    destruct Hends as [[[= -> ->] Hall] | (Hf & Hl & Hfin & Hlin)].
    + simpl. split.
      * apply Forall_app. split.
        -- apply (Forall_impl _ _ _ Hall). intros t' -> H. congruence.
        -- constructor; [|constructor]. intros _. split; apply string_leb_refl.
      * right. rewrite !elem_of_app, !list_elem_of_singleton. auto.
    + apply str_nonempty_ne in Hf as Hf'. apply str_nonempty_ne in Hl as Hl'.
      rewrite Hf', Hl'. simpl. split.
      * apply Forall_app. split.
        -- apply (Forall_impl _ _ _ Hb). intros t' Ht' Hne. destruct (Ht' Hne) as [H1 H2].
           split.
           ++ destruct (String.ltb t f) eqn:Htf; [|exact H1].
              apply (string_leb_trans _ f); [apply string_ltb_to_leb, Htf | exact H1].
           ++ destruct (String.ltb l t) eqn:Hlt; [|exact H2].
              apply (string_leb_trans _ l); [exact H2 | apply string_ltb_to_leb, Hlt].
        -- constructor; [|constructor]. intros _. split.
           ++ destruct (String.ltb t f) eqn:Htf;
                [apply string_leb_refl | apply string_ltb_leb, Htf].
           ++ destruct (String.ltb l t) eqn:Hlt;
                [apply string_leb_refl | apply string_ltb_leb, Hlt].
      * right. rewrite !elem_of_app, !list_elem_of_singleton.
        destruct (String.ltb t f), (String.ltb l t); auto.
Qed.

(** The same, told of the rows the timestamps come from. *)
Lemma rows_range (py : runtime) (own : row -> bool) (rows : list row) :
  let range := foldl stamp ("", "") (stamp_of py <$> List.filter own rows) in
  (forall r, r ∈ rows -> own r = true -> stamp_of py r <> "" ->
             String.leb range.1 (stamp_of py r) = true /\
             String.leb (stamp_of py r) range.2 = true) /\
  ((range.1 = "" /\ range.2 = "" /\
    forall r, r ∈ rows -> own r = true -> stamp_of py r = "") \/
   (range.1 <> "" /\ range.2 <> "" /\
    (exists r, r ∈ rows /\ own r = true /\ stamp_of py r = range.1) /\
    (exists r, r ∈ rows /\ own r = true /\ stamp_of py r = range.2))).
Proof.
  intros range. destruct (stamps_range (stamp_of py <$> List.filter own rows)) as [Hb Hends].
  fold range in Hb, Hends.
  assert (Hin : forall r, r ∈ rows -> own r = true ->
                          stamp_of py r ∈ stamp_of py <$> List.filter own rows).
  { intros r Hr Ho. apply list_elem_of_fmap_2, list_elem_of_In, List.filter_In.
    split; [apply list_elem_of_In, Hr | exact Ho]. }
  assert (Hout : forall t, t ∈ stamp_of py <$> List.filter own rows ->
                           exists r, r ∈ rows /\ own r = true /\ stamp_of py r = t).
  { intros t Ht. apply list_elem_of_fmap in Ht as (r & -> & Hr).
    apply list_elem_of_In, List.filter_In in Hr as [Hr Ho].
    exists r. split; [apply list_elem_of_In, Hr | auto]. }
  rewrite Forall_forall in Hb. split.
  - intros r Hr Ho. apply Hb, Hin; assumption.
  - destruct Hends as [[He Hall] | (H1 & H2 & H3 & H4)].
    + left. rewrite He. simpl. split; [reflexivity|]. split; [reflexivity|].
      rewrite Forall_forall in Hall. intros r Hr Ho. apply Hall, Hin; assumption.
    + right. auto.
Qed.

Section ShowStamps.
Import Series.
Context (py : runtime) (thr : float) (k : string).

Let range_of (o : option bucket) : string * string :=
  match o with
  | Some b => (b_first_watched b, b_last_watched b)
  | None => ("", "")
  end.

Lemma earliest_latest_same (t : string) : earliest t t = t /\ latest t t = t.
Proof.
  unfold earliest, latest. destruct (str_nonempty t); [|auto].
  destruct (String.ltb t t); auto.
Qed.

Lemma step_range_of (o : option bucket) (r : row) :
  range_of (Some (update_bucket py thr r (default (new_bucket py r) o)))
  = stamp (range_of o) (stamp_of py r).
Proof.
  unfold range_of, stamp, update_bucket, stamp_of. cbn [b_first_watched b_last_watched].
  destruct o as [b|]; simpl; [reflexivity|].
  destruct (earliest_latest_same (_ts_readable py (row_timestamp r))) as [-> ->].
  unfold earliest, latest.
  destruct (str_nonempty (_ts_readable py (row_timestamp r))) eqn:Hne; [reflexivity|].
  destruct (_ts_readable py (row_timestamp r)); [reflexivity | discriminate Hne].
Qed.

Lemma loop_range_of (rows : list row) (o : option bucket) :
  range_of (show_entry_after py thr k o rows)
  = foldl stamp (range_of o) (stamp_of py <$> List.filter (in_show py k) rows).
Proof.
  revert o. induction rows as [|r rows IH]; intros o; [reflexivity|].
  change (show_entry_after py thr k o (r :: rows))
    with (show_entry_after py thr k
            (if in_show py k r
             then Some (update_bucket py thr r (default (new_bucket py r) o)) else o) rows).
  destruct (in_show py k r) eqn:Hr.
  - rewrite IH, step_range_of. simpl. rewrite Hr. reflexivity.
  - rewrite IH. simpl. rewrite Hr. reflexivity.
Qed.

(** X8: [first_watched] and [last_watched] of a show bound, in the order of
    text, the timestamp of every play of the show that has one; they are
    both empty when no play of the show has a timestamp, and otherwise each
    is the timestamp of one of its plays. *)
Theorem show_watch_range (rows : list row) (st : list (string * bucket)) (b : bucket) :
  series_buckets py thr rows = Ok st ->
  assoc_lookup k st = Some b ->
  let f := first_watched (finalize b) in
  let l := last_watched (finalize b) in
  (forall r, r ∈ rows -> bucket_key py r = Ok k -> stamp_of py r <> "" ->
             String.leb f (stamp_of py r) = true /\ String.leb (stamp_of py r) l = true) /\
  ((f = "" /\ l = "" /\
    forall r, r ∈ rows -> bucket_key py r = Ok k -> stamp_of py r = "") \/
   (f <> "" /\ l <> "" /\
    (exists r, r ∈ rows /\ bucket_key py r = Ok k /\ stamp_of py r = f) /\
    (exists r, r ∈ rows /\ bucket_key py r = Ok k /\ stamp_of py r = l))).
Proof.
  intros Hrun Hb f l.
  pose proof (series_loop_entry py thr k rows [] st Hrun) as He.
  rewrite Hb in He. simpl in He.
  pose proof (loop_range_of rows None) as Hr. rewrite <- He in Hr. simpl in Hr.
  pose proof (rows_range py (in_show py k) rows) as Hrange.
  rewrite <- Hr in Hrange. simpl in Hrange.
  setoid_rewrite (in_show_key py k) in Hrange. exact Hrange.
Qed.

End ShowStamps.

(** ** Movie aggregator: one movie at a time *)

Section MovieEntries.
Import Movies.
Context (py : runtime) (thr : float) (k : string).

Lemma in_movie_key (r : row) : in_movie py k r = true <-> bucket_key py r = k.
Proof. unfold in_movie. apply String.eqb_eq. Qed.

Lemma movies_loop_entry (rows : list row) (movies : list (string * summary)) :
  assoc_lookup k (foldl (movies_step py thr) movies rows)
  = movie_entry_after py thr k (assoc_lookup k movies) rows.
Proof.
  revert movies. induction rows as [|r rows IH]; intros movies; simpl; [reflexivity|].
  rewrite IH. f_equal. unfold movies_step, in_movie.
  destruct (String.eqb_spec (bucket_key py r) k) as [<- | Hne].
  - apply assoc_lookup_store_eq.
  - apply assoc_lookup_store_ne, Hne.
Qed.

Lemma movie_entry_cons (o : option summary) (r : row) (rows : list row) :
  movie_entry_after py thr k o (r :: rows)
  = movie_entry_after py thr k
      (if in_movie py k r
       then Some (update_bucket py thr r (default (new_bucket py r) o)) else o) rows.
Proof. reflexivity. Qed.

Lemma movie_entry_some (rows : list row) (o : option summary) :
  is_Some (movie_entry_after py thr k o rows) ->
  is_Some o \/ exists r, r ∈ rows /\ in_movie py k r = true.
Proof.
  revert o. induction rows as [|r rows IH]; intros o; [auto|].
  rewrite movie_entry_cons. intros H. apply IH in H as [H | (r' & Hr' & H)].
  - destruct (in_movie py k r) eqn:Hr; [right | auto].
    exists r. split; [apply list_elem_of_here | exact Hr].
  - right. exists r'. split; [apply list_elem_of_further, Hr' | exact H].
Qed.

(** The numbers of an entry that may not be there yet. *)
Let plays_of (o : option summary) : Z :=
  match o with
  | Some b => plays b
  | None => 0
  end.

Let completed_of (o : option summary) : bool :=
  match o with
  | Some b => completed_any b
  | None => false
  end.

Let last_of (o : option summary) : option float :=
  match o with
  | Some b => last_percent b
  | None => None
  end.

Let range_of (o : option summary) : string * string :=
  match o with
  | Some b => (first_watched b, last_watched b)
  | None => ("", "")
  end.

Lemma loop_plays_of (rows : list row) (o : option summary) :
  plays_of (movie_entry_after py thr k o rows)
  = plays_of o + Z.of_nat (length (List.filter (in_movie py k) rows)).
Proof.
  revert o. induction rows as [|r rows IH]; intros o; [simpl; lia|].
  rewrite movie_entry_cons, IH. simpl. destruct (in_movie py k r); [|reflexivity].
  destruct o; simpl; lia.
Qed.

Lemma loop_completed_of (rows : list row) (o : option summary) :
  completed_of (movie_entry_after py thr k o rows) = true
  <-> completed_of o = true \/
      exists r, r ∈ rows /\ in_movie py k r = true /\
                watched thr (_percent_from_row py r) = true.
Proof.
  revert o. induction rows as [|r rows IH]; intros o.
  - simpl. split; [auto | intros [H | (r & Hr & _)]; [exact H | inversion Hr]].
  - rewrite movie_entry_cons, IH. destruct (in_movie py k r) eqn:Hr.
    + assert (Hstep : completed_of (Some (update_bucket py thr r (default (new_bucket py r) o)))
                      = watched thr (_percent_from_row py r) || completed_of o).
      { unfold completed_of, update_bucket. cbn [completed_any].
        destruct (watched thr (_percent_from_row py r)); [reflexivity|].
        destruct o; reflexivity. }
      rewrite Hstep, orb_true_iff. split.
      * intros [[H | H] | (r' & Hr' & H)]; [right | auto | right].
        -- exists r. split; [apply list_elem_of_here | auto].
        -- exists r'. split; [apply list_elem_of_further, Hr' | exact H].
      * intros [H | (r' & Hr' & H1 & H2)]; [auto|].
        apply elem_of_cons in Hr' as [-> | Hr']; [auto | right; eauto].
    + split.
      * intros [H | (r' & Hr' & H)]; [auto | right].
        exists r'. split; [apply list_elem_of_further, Hr' | exact H].
      * intros [H | (r' & Hr' & H1 & H2)]; [auto|].
        apply elem_of_cons in Hr' as [-> | Hr']; [congruence | right; eauto].
Qed.

Lemma loop_last_of (rows : list row) (o : option summary) :
  last_of (movie_entry_after py thr k o rows)
  = match last (omap (_percent_from_row py) (List.filter (in_movie py k) rows)) with
    | Some p => Some p
    | None => last_of o
    end.
Proof.
  revert o. induction rows as [|r rows IH]; intros o; [reflexivity|].
  rewrite movie_entry_cons, IH. simpl. destruct (in_movie py k r); [|reflexivity].
  assert (Hstep : last_of (Some (update_bucket py thr r (default (new_bucket py r) o)))
                  = match _percent_from_row py r with
                    | Some p => Some p
                    | None => last_of o
                    end).
  { unfold last_of, update_bucket. cbn [last_percent].
    destruct (_percent_from_row py r); [reflexivity | destruct o; reflexivity]. }
  rewrite Hstep. csimpl. destruct (_percent_from_row py r) as [p|]; [|reflexivity].
  rewrite last_cons. destruct (last _); reflexivity.
Qed.

Lemma movie_step_range_of (o : option summary) (r : row) :
  range_of (Some (update_bucket py thr r (default (new_bucket py r) o)))
  = stamp (range_of o) (stamp_of py r).
Proof.
  unfold range_of, stamp, update_bucket, stamp_of. cbn [first_watched last_watched].
  destruct o as [b|]; simpl; [reflexivity|].
  destruct (earliest_latest_same (_ts_readable py (row_timestamp r))) as [-> ->].
  unfold earliest, latest.
  destruct (str_nonempty (_ts_readable py (row_timestamp r))) eqn:Hne; [reflexivity|].
  destruct (_ts_readable py (row_timestamp r)); [reflexivity | discriminate Hne].
Qed.

Lemma movie_loop_range_of (rows : list row) (o : option summary) :
  range_of (movie_entry_after py thr k o rows)
  = foldl stamp (range_of o) (stamp_of py <$> List.filter (in_movie py k) rows).
Proof.
  revert o. induction rows as [|r rows IH]; intros o; [reflexivity|].
  rewrite movie_entry_cons. destruct (in_movie py k r) eqn:Hr.
  - rewrite IH, movie_step_range_of. simpl. rewrite Hr. reflexivity.
  - rewrite IH. simpl. rewrite Hr. reflexivity.
Qed.

(** X9: every play of a movie counts: [plays] is the number of rows of the
    list that fall under the movie's key, replays included, and is at least
    one. *)
Theorem movie_plays_counted (rows : list row) (b : summary) :
  assoc_lookup k (movies_buckets py thr rows) = Some b ->
  plays (finalize b) = Z.of_nat (length (filter (fun r => bucket_key py r = k) rows)) /\
  1 <= plays (finalize b).
Proof.
  intros Hb. unfold movies_buckets in Hb. rewrite movies_loop_entry in Hb. simpl in Hb.
  pose proof (loop_plays_of rows None) as Hp. rewrite Hb in Hp. simpl in Hp.
  assert (Hlen : length (List.filter (in_movie py k) rows)
                 = length (filter (fun r => bucket_key py r = k) rows)).
  { clear. induction rows as [|r rows IH]; [reflexivity|].
    rewrite filter_cons. simpl. unfold in_movie at 1.
    destruct (String.eqb_spec (bucket_key py r) k); case_decide; try contradiction;
      simpl; rewrite IH; reflexivity. }
  rewrite Hlen in Hp. split; [exact Hp|]. simpl. rewrite Hp.
  assert (Hsome : exists r, r ∈ rows /\ in_movie py k r = true).
  { destruct (movie_entry_some rows None) as [[? H] | H];
      [rewrite Hb; eauto | discriminate H | exact H]. }
  destruct Hsome as (r & Hr & Hin). apply in_movie_key in Hin.
  assert (r ∈ filter (fun r => bucket_key py r = k) rows) as Hf
    by (apply list_elem_of_filter; auto).
  destruct (filter _ rows); [inversion Hf | simpl; lia].
Qed.

(** X10: [completed_any] of a movie is set exactly when one of its plays
    counts as watched: it has no percent, or a percent at or above the
    threshold. *)
Theorem movie_completed_any (rows : list row) (b : summary) :
  assoc_lookup k (movies_buckets py thr rows) = Some b ->
  completed_any (finalize b) = true <->
  exists r, r ∈ rows /\ bucket_key py r = k /\
            watched thr (_percent_from_row py r) = true.
Proof.
  intros Hb. unfold movies_buckets in Hb. rewrite movies_loop_entry in Hb. simpl in Hb.
  pose proof (loop_completed_of rows None) as Hc. rewrite Hb in Hc. simpl in Hc.
  rewrite Hc. setoid_rewrite in_movie_key. split; [|auto].
  intros [H | H]; [discriminate H | exact H].
Qed.

(** X11: [last_percent] of a movie is the percent, rounded to two places, of
    the last play in list order that has one, and is absent when none of its
    plays has one. *)
Theorem movie_last_percent (rows : list row) (b : summary) :
  assoc_lookup k (movies_buckets py thr rows) = Some b ->
  last_percent (finalize b)
  = round2 <$> last (omap (_percent_from_row py) (List.filter (in_movie py k) rows)).
Proof.
  intros Hb. unfold movies_buckets in Hb. rewrite movies_loop_entry in Hb. simpl in Hb.
  pose proof (loop_last_of rows None) as Hl. rewrite Hb in Hl. simpl in Hl.
  simpl. rewrite Hl. destruct (last _); reflexivity.
Qed.

(** X12: [first_watched] and [last_watched] of a movie bound the timestamp
    of every play of the movie that has one; they are both empty when no
    play has a timestamp, and otherwise each is the timestamp of one of its
    plays. *)
Theorem movie_watch_range (rows : list row) (b : summary) :
  assoc_lookup k (movies_buckets py thr rows) = Some b ->
  let f := first_watched (finalize b) in
  let l := last_watched (finalize b) in
  (forall r, r ∈ rows -> bucket_key py r = k -> stamp_of py r <> "" ->
             String.leb f (stamp_of py r) = true /\ String.leb (stamp_of py r) l = true) /\
  ((f = "" /\ l = "" /\
    forall r, r ∈ rows -> bucket_key py r = k -> stamp_of py r = "") \/
   (f <> "" /\ l <> "" /\
    (exists r, r ∈ rows /\ bucket_key py r = k /\ stamp_of py r = f) /\
    (exists r, r ∈ rows /\ bucket_key py r = k /\ stamp_of py r = l))).
Proof.
  intros Hb f l. unfold movies_buckets in Hb. rewrite movies_loop_entry in Hb. simpl in Hb.
  pose proof (movie_loop_range_of rows None) as Hr. rewrite Hb in Hr. simpl in Hr.
  pose proof (rows_range py (in_movie py k) rows) as Hrange.
  rewrite <- Hr in Hrange. simpl in Hrange.
  setoid_rewrite in_movie_key in Hrange. exact Hrange.
Qed.

End MovieEntries.

(** ** One row per show *)

Lemma assoc_lookup_keys {A} (k : string) (d : list (string * A)) :
  is_Some (assoc_lookup k d) <-> k ∈ d.*1.
Proof.
  induction d as [|[k' a] d IH]; simpl.
  - split; [intros [? H]; discriminate H | intros H; inversion H].
  - rewrite elem_of_cons. destruct (bool_decide (k' = k)) eqn:E.
    + apply bool_decide_eq_true_1 in E. split; [auto | eauto].
    + apply bool_decide_eq_false_1 in E. rewrite IH. split; [auto|].
      intros [H | H]; [congruence | exact H].
Qed.

Lemma assoc_store_keys {A} (k : string) (a : A) (d : list (string * A)) :
  NoDup d.*1 -> NoDup (assoc_store k a d).*1.
Proof.
  induction d as [|[k' a'] d IH]; simpl; intros Hd.
  - constructor; [apply not_elem_of_nil | constructor].
  - apply NoDup_cons in Hd as [Hk' Hd]. destruct (bool_decide (k' = k)) eqn:E; csimpl.
    + apply bool_decide_eq_true_1 in E. subst k'. apply NoDup_cons. auto.
    + apply bool_decide_eq_false_1 in E. apply NoDup_cons. split; [|auto].
      intros Hin. apply assoc_lookup_keys in Hin.
      rewrite assoc_lookup_store_ne in Hin by congruence.
      apply Hk', assoc_lookup_keys, Hin.
Qed.

Section ShowRows.
Import Series.
Context (py : runtime) (thr : float).

Lemma series_loop_keys (rows : list row) (st st' : list (string * bucket)) :
  fold_rows (series_step py thr) st rows = Ok st' -> NoDup st.*1 -> NoDup st'.*1.
Proof.
  revert st. induction rows as [|r rows IH]; simpl; intros st.
  - intros [= <-]. auto.
  - destruct (series_step py thr st r) as [st1|] eqn:Hstep; simpl; [|discriminate].
    intros Hrest Hst. apply (IH st1 Hrest).
    unfold series_step in Hstep. destruct (bucket_key py r) as [k|]; [|discriminate].
    simpl in Hstep. injection Hstep as <-. apply assoc_store_keys, Hst.
Qed.

(** X13: [aggregate_series] returns one row per show: its rows are, up to
    the order, the finalized entries of [series], whose keys are pairwise
    different and are exactly the keys of the plays. *)
Theorem one_row_per_show (rows : list row) (out : list summary) :
  aggregate_series py thr rows = Ok out ->
  exists st,
    series_buckets py thr rows = Ok st /\
    out ≡ₚ finalize <$> st.*2 /\
    NoDup st.*1 /\
    forall k, k ∈ st.*1 <-> exists r, r ∈ rows /\ bucket_key py r = Ok k.
Proof.
  unfold aggregate_series. destruct (series_buckets py thr rows) as [st|] eqn:Hrun;
    simpl; [|discriminate].
  intros Hsort. exists st. split; [reflexivity|].
  split; [apply (py_sort_perm _ _ _ _ Hsort)|].
  split; [apply (series_loop_keys rows [] st Hrun); constructor|].
  intros k. rewrite <- assoc_lookup_keys.
  rewrite (series_loop_entry py thr k rows [] st Hrun). simpl.
  rewrite (loop_entry_some py thr k rows None).
  setoid_rewrite (in_show_key py k). split; [|auto].
  intros [[? H] | H]; [discriminate H | exact H].
Qed.

End ShowRows.

(** ** API client *)

Lemma rstrip_slash_snoc (s : string) : rstrip_slash (s +:+ "/") = rstrip_slash s.
Proof.
  induction s as [|c s IH]; simpl; [reflexivity|]. rewrite IH. reflexivity.
Qed.

Lemma string_app_empty (s : string) : s +:+ "" = s.
Proof.
  induction s as [|c s IH]; [reflexivity|].
  change (String c s +:+ "") with (String c (s +:+ "")). f_equal. exact IH.
Qed.

Lemma string_app_cons (s t : string) (c : ascii) :
  s +:+ String c t = (s +:+ String c "") +:+ t.
Proof.
  induction s as [|x s IH]; [reflexivity|].
  change (String x s +:+ String c t) with (String x (s +:+ String c t)).
  change ((String x s +:+ String c "") +:+ t) with (String x ((s +:+ String c "") +:+ t)).
  f_equal. exact IH.
Qed.

Lemma rstrip_slash_slashes (n : nat) (s : string) :
  rstrip_slash (s +:+ string_of_list_ascii (replicate n "/"%char)) = rstrip_slash s.
Proof.
  revert s. induction n as [|n IH]; intros s; simpl.
  - rewrite string_app_empty. reflexivity.
  - rewrite string_app_cons, IH. apply rstrip_slash_snoc.
Qed.

Section ClientFacts.
Context (http_get : string -> list (string * value) -> result response).

(** X14: [call_api] hands back data only from a success envelope: it
    returns [data] exactly when the request got a response whose status is
    no error code and whose body is an object with an object under
    [response] that has [result] equal to [success] and [data] under [data];
    in every other case it raises. *)
Theorem call_api_success_only (base_url apikey cmd : string)
    (params : list (string * value)) (data : value) :
  call_api http_get base_url apikey cmd params = Ok data <->
  exists r d resp,
    http_get (api_url base_url) (api_payload apikey cmd params) = Ok r /\
    is_error_status (status_code r) = false /\
    json r = Ok (VDict d) /\
    d !! "response" = Some (VDict resp) /\
    resp !! "result" = Some (VStr "success") /\
    resp !! "data" = Some data.
Proof.
  unfold call_api. split.
  - destruct (http_get _ _) as [r|]; simpl; [|discriminate].
    destruct (is_error_status (status_code r)) eqn:Hst; [discriminate|].
    destruct (json r) as [[| | | | |l|d]|] eqn:Hjs; simpl; try discriminate.
    destruct (d !! "response") as [[| | | | |l|resp]|] eqn:Hresp; simpl;
      try discriminate.
    unfold dict_get. destruct (resp !! "result") as [[| | | |s| |]|] eqn:Hres;
      simpl; try discriminate.
    destruct (String.eqb_spec s "success") as [-> | _]; [|discriminate].
    destruct (resp !! "data") as [v|] eqn:Hdata; simpl; [|discriminate].
    intros [= <-]. exists r, d, resp. repeat split; auto.
  - intros (r & d & resp & -> & Hst & Hjs & Hresp & Hres & Hdata). simpl.
    rewrite Hst, Hjs. simpl. rewrite Hresp. unfold dict_get. rewrite Hres, Hdata.
    reflexivity.
Qed.

(** X15: slashes at the end of the base address do not matter: the call
    with any number of them appended is the call without them. *)
Theorem call_api_trailing_slashes (n : nat) (base_url apikey cmd : string)
    (params : list (string * value)) :
  call_api http_get (base_url +:+ string_of_list_ascii (replicate n "/"%char))
    apikey cmd params
  = call_api http_get base_url apikey cmd params.
Proof.
  unfold call_api, api_url. rewrite rstrip_slash_slashes. reflexivity.
Qed.

End ClientFacts.

(** ** User resolution *)

Section UserFacts.
Context (py : runtime).
Context (call_api : string -> list (string * value) -> result value).

(** A listed user that is an object and does not match. *)
Let passed_over (name_lower : string) (fields : list string) (v : value) : Prop :=
  exists u, v = VDict u /\ name_matches py name_lower fields u = false.

Lemma find_user_first (name_lower : string) (fields : list string)
    (pre post : list value) (u : row) :
  Forall (passed_over name_lower fields) pre ->
  name_matches py name_lower fields u = true ->
  find_user py name_lower fields (pre ++ VDict u :: post)
  = (uid ← user_id_of py u; Ok (Some uid)).
Proof.
  intros Hpre Hu. induction Hpre as [|v pre (u' & -> & Hu') _ IH]; simpl.
  - rewrite Hu. reflexivity.
  - rewrite Hu'. exact IH.
Qed.

Lemma find_user_sound (name_lower : string) (fields : list string)
    (users : list value) (uid : Z) :
  find_user py name_lower fields users = Ok (Some uid) ->
  exists u, VDict u ∈ users /\ name_matches py name_lower fields u = true /\
            user_id_of py u = Ok uid.
Proof.
  induction users as [|v users IH]; simpl; [discriminate|].
  destruct v as [| | | | | |u]; try discriminate.
  destruct (name_matches py name_lower fields u) eqn:Hu.
  - destruct (user_id_of py u) as [n|] eqn:Hid; simpl; [|discriminate].
    intros [= <-]. exists u. split; [apply list_elem_of_here | auto].
  - intros H. destruct (IH H) as (u' & Hin & Hm & Hid).
    exists u'. split; [apply list_elem_of_further, Hin | auto].
Qed.

Lemma find_user_none (name_lower : string) (fields : list string) (users : list value) :
  Forall (passed_over name_lower fields) users ->
  find_user py name_lower fields users = Ok None.
Proof.
  induction 1 as [|v users (u & -> & Hu) _ IH]; simpl; [reflexivity|].
  rewrite Hu. exact IH.
Qed.

(** X16: an id [resolve_user_id] returns is the [user_id] of a listed user
    whose name matches without regard to case: a user of [get_users]
    matching by [username] or [friendly_name], or a user of
    [get_user_names] matching by [friendly_name]. *)
Theorem resolve_user_sound (name : string) (uid : Z) :
  resolve_user_id py call_api name = Ok uid ->
  exists cmd fields users l u,
    ((cmd = "get_users" /\ fields = ["username"; "friendly_name"]) \/
     (cmd = "get_user_names" /\ fields = ["friendly_name"])) /\
    call_api cmd [] = Ok users /\
    py_iter users = Ok l /\
    VDict u ∈ l /\
    name_matches py (str_lower py name) fields u = true /\
    user_id_of py u = Ok uid.
Proof.
  unfold resolve_user_id.
  destruct (primary_lookup py call_api (str_lower py name)) as [[n|]|] eqn:Hp; simpl.
  - intros [= <-]. unfold primary_lookup in Hp.
    destruct (call_api "get_users" []) as [users|] eqn:Hc; simpl in Hp; [|discriminate].
    destruct (py_iter users) as [l|] eqn:Hl; simpl in Hp; [|discriminate].
    destruct (find_user_sound _ _ _ _ Hp) as (u & Hin & Hm & Hid).
    exists "get_users", ["username"; "friendly_name"], users, l, u. auto 10.
  - unfold fallback_lookup.
    destruct (call_api "get_user_names" []) as [users|] eqn:Hc; simpl; [|discriminate].
    destruct (py_iter users) as [l|] eqn:Hl; simpl; [|discriminate].
    destruct (find_user py (str_lower py name) ["friendly_name"] l) as [[n|]|] eqn:Hf;
      simpl; try discriminate.
    intros [= <-]. destruct (find_user_sound _ _ _ _ Hf) as (u & Hin & Hm & Hid).
    exists "get_user_names", ["friendly_name"], users, l, u. auto 10.
  - unfold fallback_lookup.
    destruct (call_api "get_user_names" []) as [users|] eqn:Hc; simpl; [|discriminate].
    destruct (py_iter users) as [l|] eqn:Hl; simpl; [|discriminate].
    destruct (find_user py (str_lower py name) ["friendly_name"] l) as [[n|]|] eqn:Hf;
      simpl; try discriminate.
    intros [= <-]. destruct (find_user_sound _ _ _ _ Hf) as (u & Hin & Hm & Hid).
    exists "get_user_names", ["friendly_name"], users, l, u. auto 10.
Qed.

(** X17: the first user of [get_users] that matches decides: when the users
    listed before it are objects that do not match and its [user_id]
    converts to an integer, that integer is returned, whatever
    [get_user_names] would answer. *)
Theorem resolve_user_primary_first (name : string) (users : value)
    (pre post : list value) (u : row) (uid : Z) :
  call_api "get_users" [] = Ok users ->
  py_iter users = Ok (pre ++ VDict u :: post) ->
  Forall (fun v => exists u', v = VDict u' /\
                   name_matches py (str_lower py name) ["username"; "friendly_name"] u' = false)
    pre ->
  name_matches py (str_lower py name) ["username"; "friendly_name"] u = true ->
  user_id_of py u = Ok uid ->
  resolve_user_id py call_api name = Ok uid.
Proof.
  intros Hc Hl Hpre Hu Hid. unfold resolve_user_id, primary_lookup.
  rewrite Hc. simpl. rewrite Hl. simpl.
  rewrite (find_user_first _ _ pre post u Hpre Hu), Hid. reflexivity.
Qed.

(** X18: the lookup fails with an exception when nobody matches: the
    preferred listing raises or lists only objects that do not match, and
    the second listing raises, or lists only objects that do not match. *)
Theorem resolve_user_not_found (name : string) :
  (call_api "get_users" [] = Raise \/
   exists users l,
     call_api "get_users" [] = Ok users /\ py_iter users = Ok l /\
     Forall (fun v => exists u, v = VDict u /\
                      name_matches py (str_lower py name) ["username"; "friendly_name"] u = false)
       l) ->
  (call_api "get_user_names" [] = Raise \/
   exists users l,
     call_api "get_user_names" [] = Ok users /\ py_iter users = Ok l /\
     Forall (fun v => exists u, v = VDict u /\
                      name_matches py (str_lower py name) ["friendly_name"] u = false) l) ->
  resolve_user_id py call_api name = Raise.
Proof.
  intros Hprimary Hsecond. unfold resolve_user_id.
  assert (Hp : try_except (primary_lookup py call_api (str_lower py name)) (Ok None)
               = Ok None).
  { unfold primary_lookup. destruct Hprimary as [-> | (users & l & -> & Hl & Hall)];
      [reflexivity|].
    simpl. rewrite Hl. simpl. rewrite (find_user_none _ _ _ Hall). reflexivity. }
  rewrite Hp. simpl. unfold fallback_lookup.
  destruct Hsecond as [-> | (users & l & -> & Hl & Hall)]; [reflexivity|].
  simpl. rewrite Hl. simpl. rewrite (find_user_none _ _ _ Hall). reflexivity.
Qed.

(** ** History fetching *)

Lemma fetch_pages_complete (all : list value) (user_id : Z) (media_type : string) :
  (forall s : nat, exists data,
      call_api "get_history" (history_params user_id media_type (Z.of_nat s)) = Ok data /\
      page_rows data = VList (take 1000 (drop s all))) ->
  forall (fuel s : nat),
    (length all - s < fuel * 1000)%nat ->
    fetch_pages call_api fuel user_id media_type (Z.of_nat s) (take s all) = Some (Ok all).
Proof.
  intros Hapi fuel. induction fuel as [|fuel IH]; intros s Hfuel; [lia|].
  simpl. destruct (Hapi s) as (data & -> & ->).
  pose proof (take_drop s all) as Hall.
  pose proof (length_take (drop s all) 1000%nat) as Hlen.
  pose proof (length_drop all s) as Hdrop.
  destruct (take 1000 (drop s all)) as [|x p] eqn:Hp.
  - simpl. simpl in Hlen. f_equal. f_equal.
    assert (drop s all = []) as Hd by (destruct (drop s all); [reflexivity | discriminate Hp]).
    rewrite Hd in Hall. rewrite app_nil_r in Hall. exact Hall.
  - cbn [truthy py_iter py_len]. unfold page.
    destruct (Z.of_nat (length (x :: p)) <? 1000) eqn:Hshort.
    + apply Z.ltb_lt in Hshort. f_equal. f_equal. rewrite <- Hp.
      rewrite (take_ge (drop s all) 1000) by lia. exact Hall.
    + apply Z.ltb_ge in Hshort.
      replace (Z.of_nat s + Z.of_nat (length (x :: p))) with (Z.of_nat (s + 1000)) by lia.
      rewrite <- Hp, take_take_drop. apply IH. lia.
Qed.

(** X19: [fetch_history] puts the pages back together: against a server
    that holds a list of rows and answers every request with the page of at
    most 1000 rows that starts at the offset asked for (bare, or under
    [data]), the loop ends and returns the whole list, in order, within
    one request per full page plus one. *)
Theorem fetch_history_complete (all : list value) (user_id : Z) (media_type : string)
    (fuel : nat) :
  media_type = "episode" \/ media_type = "movie" ->
  (forall s : nat, exists data,
      call_api "get_history" (history_params user_id media_type (Z.of_nat s)) = Ok data /\
      page_rows data = VList (take 1000 (drop s all))) ->
  (length all < fuel * 1000)%nat ->
  fetch_history call_api fuel user_id media_type = Some (Ok all).
Proof.
  intros Hmt Hapi Hfuel. unfold fetch_history.
  assert (String.eqb media_type "episode" || String.eqb media_type "movie" = true) as ->
    by (destruct Hmt as [-> | ->]; reflexivity).
  apply (fetch_pages_complete all user_id media_type Hapi fuel 0). lia.
Qed.

End UserFacts.

(** ** Durations in the log *)

(** X20: [fmt_duration] splits the whole seconds of a duration into hours,
    minutes below 60 and seconds below 60 that add up to it again, and
    prints them without the leading units that are zero. *)
Theorem fmt_duration_parts (seconds : float) (n : Z) :
  float_trunc seconds = Some n ->
  let h := n / 3600 in
  let m := (n / 60) mod 60 in
  let s := n mod 60 in
  n = 3600 * h + 60 * m + s /\ 0 <= m < 60 /\ 0 <= s < 60 /\
  fmt_duration seconds
  = Ok (if h =? 0 then
          if m =? 0 then pretty s +:+ "s"
          else pretty m +:+ "m " +:+ pretty s +:+ "s"
        else pretty h +:+ "h " +:+ pretty m +:+ "m " +:+ pretty s +:+ "s").
Proof.
  intros Hn h m s. unfold fmt_duration. rewrite Hn. simpl.
  assert (Hh : n / 60 / 60 = h) by (unfold h; Z.div_mod_to_equations; lia).
  rewrite Hh. fold m s.
  split; [unfold h, m, s; Z.div_mod_to_equations; lia|].
  split; [unfold m; Z.div_mod_to_equations; lia|].
  split; [unfold s; Z.div_mod_to_equations; lia|].
  destruct (h =? 0); simpl; [|reflexivity]. destruct (m =? 0); reflexivity.
Qed.

(** ** Availability resolver: the paths that succeed *)

Section ResolverPaths.
Context (py : runtime) (call_api : string -> list (string * value) -> result value).

Lemma first_count_first (d : row) (before after : list string) (k : string) :
  Forall (fun k' => dict_get d k' = VNone) before ->
  dict_get d k <> VNone ->
  first_count py d (before ++ k :: after)
  = (n ← of_option (to_int py (dict_get d k)); Ok (Some n)).
Proof.
  intros Hbefore Hk. induction Hbefore as [|k' before Hk' _ IH]; simpl.
  - destruct (dict_get d k); [contradiction | reflexivity..].
  - rewrite Hk'. exact IH.
Qed.

(** X21: the fast path decides whenever it can: if the metadata of the show
    is an object, the first of [leaf_count], [leafCount], [episode_count]
    that is there and not [None] is returned as an integer, and the season
    traversal plays no part. *)
Theorem fast_path_first_field (key : string) (d : row) (before after : list string)
    (k : string) (n : Z) :
  call_api "get_metadata" [("rating_key", VStr key)] = Ok (VDict d) ->
  ["leaf_count"; "leafCount"; "episode_count"] = before ++ k :: after ->
  Forall (fun k' => dict_get d k' = VNone) before ->
  dict_get d k <> VNone ->
  to_int py (dict_get d k) = Some n ->
  count_available_episodes py call_api key = Ok n.
Proof.
  intros Hmd Hnames Hbefore Hk Hn. unfold count_available_episodes, fast_path.
  rewrite Hmd. cbn [mbind result_bind].
  rewrite Hnames, (first_count_first d before after k Hbefore Hk), Hn.
  reflexivity.
Qed.

Lemma season_loop_full (seasons : list value) (counts : list (option Z)) (total : Z) :
  Forall2 (fun x c => season_count py call_api x = Ok c) seasons counts ->
  season_loop py call_api seasons total = (total + counted counts, Ok tt).
Proof.
  intros H. revert total. induction H as [|x c seasons counts Hx _ IH]; intros total; simpl.
  - f_equal. lia.
  - rewrite Hx. destruct c as [n|]; rewrite IH; f_equal; simpl; lia.
Qed.

(** X22: when the fast path raises or finds no count field and every
    season can be read, the result is the sum of the counts of all the
    seasons, a season without a key adding nothing. *)
Theorem count_available_full_sum (key : string) (seasons : list value)
    (counts : list (option Z)) :
  fast_path py call_api key = Raise \/ fast_path py call_api key = Ok None ->
  season_items call_api key = Ok seasons ->
  Forall2 (fun x c => season_count py call_api x = Ok c) seasons counts ->
  count_available_episodes py call_api key = Ok (counted counts).
Proof.
  intros Hfast Hitems Hseasons. unfold count_available_episodes, fallback.
  rewrite Hitems, (season_loop_full seasons counts 0 Hseasons).
  destruct Hfast as [-> | ->]; reflexivity.
Qed.

End ResolverPaths.

(** ** Closed instances *)

Lemma two_shows_entry :
  exists st b,
    Series.series_buckets example_runtime 85 two_shows = Ok st /\
    assoc_lookup "1" st = Some b.
Proof.
  destruct (Series.series_buckets example_runtime 85 two_shows) as [st|] eqn:Hrun;
    [|vm_compute in Hrun; discriminate Hrun].
  destruct (assoc_lookup "1" st) as [b|] eqn:Hb; [eauto|].
  vm_compute in Hrun. injection Hrun as <-. vm_compute in Hb. discriminate Hb.
Qed.

Lemma two_movies_entry :
  exists b, assoc_lookup "m1" (Movies.movies_buckets example_runtime 85 two_movies) = Some b.
Proof.
  destruct (assoc_lookup "m1" (Movies.movies_buckets example_runtime 85 two_movies))
    as [b|] eqn:Hb; [eauto|]. vm_compute in Hb. discriminate Hb.
Qed.

Lemma aggregate_series_sorted_witness :
  exists out titles,
    Series.aggregate_series example_runtime 85 two_shows = Ok out /\
    mapM (fun x => lower_title example_runtime (Series.show_title x)) out = Ok titles /\
    StronglySorted (fun a b => String.leb a b = true) titles.
Proof.
  destruct (Series.aggregate_series example_runtime 85 two_shows) as [out|] eqn:H;
    [|vm_compute in H; discriminate H].
  destruct (aggregate_series_sorted example_runtime 85 two_shows out H) as (titles & Hk & Hs).
  exists out, titles. auto.
Defined.

Lemma aggregate_movies_sorted_witness :
  exists out keys,
    Movies.aggregate_movies example_runtime 85 two_movies = Ok out /\
    mapM (Movies.sort_key example_runtime) out = Ok keys /\
    StronglySorted (fun a b => String.leb a.1 b.1 = true /\
                               (a.1 = b.1 -> String.leb a.2 b.2 = true)) keys.
Proof.
  destruct (Movies.aggregate_movies example_runtime 85 two_movies) as [out|] eqn:H;
    [|vm_compute in H; discriminate H].
  destruct (aggregate_movies_sorted example_runtime 85 two_movies out H) as (keys & Hk & Hs).
  exists out, keys. auto.
Defined.

Lemma show_entry_from_own_plays_witness :
  exists st st_k,
    Series.series_buckets example_runtime 85 two_shows = Ok st /\
    Series.series_buckets example_runtime 85
      (List.filter (in_show example_runtime "1") two_shows) = Ok st_k /\
    assoc_lookup "1" st_k = assoc_lookup "1" st.
Proof.
  destruct two_shows_entry as (st & b & Hrun & _).
  destruct (show_entry_from_own_plays example_runtime 85 two_shows "1" st Hrun)
    as (st_k & Hk & He).
  exists st, st_k. auto.
Defined.

Lemma watched_set_members_witness :
  exists st b,
    Series.series_buckets example_runtime 85 two_shows = Ok st /\
    assoc_lookup "1" st = Some b /\
    forall e, e ∈ Series._seen_watched b <->
              exists r, r ∈ two_shows /\ Series.bucket_key example_runtime r = Ok "1" /\
                        Series.ep_key_of example_runtime r = e /\ e <> "" /\
                        watched 85 (_percent_from_row example_runtime r) = true.
Proof.
  destruct two_shows_entry as (st & b & Hrun & Hb). exists st, b.
  split; [exact Hrun|]. split; [exact Hb|].
  exact (proj1 (watched_set_members example_runtime 85 "1" two_shows st b Hrun Hb)).
Defined.

Lemma counted_set_members_witness :
  exists st b,
    Series.series_buckets example_runtime 85 two_shows = Ok st /\
    assoc_lookup "1" st = Some b /\
    forall e, e ∈ Series._seen_watched b ∪ Series._seen_partial b <->
              exists r, r ∈ two_shows /\ Series.bucket_key example_runtime r = Ok "1" /\
                        Series.ep_key_of example_runtime r = e /\ e <> "".
Proof.
  destruct two_shows_entry as (st & b & Hrun & Hb). exists st, b.
  split; [exact Hrun|]. split; [exact Hb|].
  exact (counted_set_members example_runtime 85 "1" two_shows st b Hrun Hb).
Defined.

Lemma watched_set_order_free_witness :
  two_shows ≡ₚ two_shows_reversed /\
  exists st st',
    Series.series_buckets example_runtime 85 two_shows = Ok st /\
    Series.series_buckets example_runtime 85 two_shows_reversed = Ok st' /\
    forall k b,
      assoc_lookup k st = Some b ->
      exists b',
        assoc_lookup k st' = Some b' /\
        Series._seen_watched b' = Series._seen_watched b /\
        Series.unique_episodes_watched (Series.finalize b')
        = Series.unique_episodes_watched (Series.finalize b) /\
        Series._seen_watched b' ∪ Series._seen_partial b'
        = Series._seen_watched b ∪ Series._seen_partial b.
Proof.
  assert (Hperm : two_shows ≡ₚ two_shows_reversed)
    by (unfold two_shows_reversed; symmetry; apply reverse_Permutation).
  split; [exact Hperm|].
  destruct two_shows_entry as (st & _ & Hrun & _).
  destruct (watched_set_order_free example_runtime 85 two_shows two_shows_reversed st
              Hperm Hrun) as (st' & Hrun' & Hsame).
  exists st, st'. auto.
Defined.

Lemma show_title_from_first_play_witness :
  exists st b pre r post,
    Series.series_buckets example_runtime 85 two_shows = Ok st /\
    assoc_lookup "1" st = Some b /\
    two_shows = pre ++ r :: post /\
    Forall (fun r' => Series.bucket_key example_runtime r' <> Ok "1") pre /\
    Series.bucket_key example_runtime r = Ok "1" /\
    Series.b_show_title b = Series.show_title_of r /\
    Series.b_show_rating_key b = Series.show_key_of example_runtime r.
Proof.
  destruct two_shows_entry as (st & b & Hrun & Hb).
  destruct (show_title_from_first_play example_runtime 85 two_shows "1" st b Hrun Hb)
    as (pre & r & post & H).
  exists st, b, pre, r, post. auto.
Defined.

Lemma show_watch_range_witness :
  exists st b,
    Series.series_buckets example_runtime 85 two_shows = Ok st /\
    assoc_lookup "1" st = Some b /\
    Series.first_watched (Series.finalize b) = "2024-01-02 08:00:00" /\
    Series.last_watched (Series.finalize b) = "2024-01-06 21:00:00" /\
    forall r, r ∈ two_shows -> Series.bucket_key example_runtime r = Ok "1" ->
              stamp_of example_runtime r <> "" ->
              String.leb (Series.first_watched (Series.finalize b))
                (stamp_of example_runtime r) = true /\
              String.leb (stamp_of example_runtime r)
                (Series.last_watched (Series.finalize b)) = true.
Proof.
  destruct two_shows_entry as (st & b & Hrun & Hb). exists st, b.
  split; [exact Hrun|]. split; [exact Hb|].
  pose proof (proj1 (show_watch_range example_runtime 85 "1" two_shows st b Hrun Hb)) as H.
  vm_compute in Hrun. injection Hrun as <-. vm_compute in Hb. injection Hb as <-.
  split; [reflexivity|]. split; [reflexivity|]. exact H.
Defined.

Lemma movie_plays_counted_witness :
  exists b,
    assoc_lookup "m1" (Movies.movies_buckets example_runtime 85 two_movies) = Some b /\
    Movies.plays (Movies.finalize b) = 2.
Proof.
  destruct two_movies_entry as (b & Hb). exists b. split; [exact Hb|].
  rewrite (proj1 (movie_plays_counted example_runtime 85 "m1" two_movies b Hb)).
  vm_compute. reflexivity.
Defined.

Lemma movie_completed_any_witness :
  exists b,
    assoc_lookup "m1" (Movies.movies_buckets example_runtime 85 two_movies) = Some b /\
    (Movies.completed_any (Movies.finalize b) = true <->
     exists r, r ∈ two_movies /\ Movies.bucket_key example_runtime r = "m1" /\
               watched 85 (_percent_from_row example_runtime r) = true).
Proof.
  destruct two_movies_entry as (b & Hb). exists b. split; [exact Hb|].
  exact (movie_completed_any example_runtime 85 "m1" two_movies b Hb).
Defined.

Lemma movie_last_percent_witness :
  exists b,
    assoc_lookup "m1" (Movies.movies_buckets example_runtime 85 two_movies) = Some b /\
    Movies.last_percent (Movies.finalize b) = Some 90%float.
Proof.
  destruct two_movies_entry as (b & Hb). exists b. split; [exact Hb|].
  rewrite (movie_last_percent example_runtime 85 "m1" two_movies b Hb).
  vm_compute. reflexivity.
Defined.

Lemma movie_watch_range_witness :
  exists b,
    assoc_lookup "m1" (Movies.movies_buckets example_runtime 85 two_movies) = Some b /\
    forall r, r ∈ two_movies -> Movies.bucket_key example_runtime r = "m1" ->
              stamp_of example_runtime r <> "" ->
              String.leb (Movies.first_watched (Movies.finalize b))
                (stamp_of example_runtime r) = true /\
              String.leb (stamp_of example_runtime r)
                (Movies.last_watched (Movies.finalize b)) = true.
Proof.
  destruct two_movies_entry as (b & Hb). exists b. split; [exact Hb|].
  exact (proj1 (movie_watch_range example_runtime 85 "m1" two_movies b Hb)).
Defined.

Lemma one_row_per_show_witness :
  exists out st,
    Series.aggregate_series example_runtime 85 two_shows = Ok out /\
    Series.series_buckets example_runtime 85 two_shows = Ok st /\
    out ≡ₚ Series.finalize <$> st.*2 /\
    NoDup st.*1 /\
    length out = 2%nat.
Proof.
  destruct (Series.aggregate_series example_runtime 85 two_shows) as [out|] eqn:H;
    [|vm_compute in H; discriminate H].
  destruct (one_row_per_show example_runtime 85 two_shows out H)
    as (st & Hrun & Hperm & Hnodup & _).
  exists out, st. repeat (split; [assumption || reflexivity|]).
  vm_compute in H. injection H as <-. reflexivity.
Defined.

Lemma resolve_user_sound_witness :
  resolve_user_id example_runtime api_users "BOBBY" = Ok 12 /\
  exists cmd fields users l u,
    ((cmd = "get_users" /\ fields = ["username"; "friendly_name"]) \/
     (cmd = "get_user_names" /\ fields = ["friendly_name"])) /\
    api_users cmd [] = Ok users /\
    py_iter users = Ok l /\
    VDict u ∈ l /\
    name_matches example_runtime (str_lower example_runtime "BOBBY") fields u = true /\
    user_id_of example_runtime u = Ok 12.
Proof.
  assert (H : resolve_user_id example_runtime api_users "BOBBY" = Ok 12)
    by (vm_compute; reflexivity).
  split; [exact H|]. exact (resolve_user_sound example_runtime api_users "BOBBY" 12 H).
Defined.

Lemma resolve_user_primary_first_witness :
  api_users "get_users" [] = Ok (VList [VDict alice; VDict bob]) /\
  name_matches example_runtime (str_lower example_runtime "Bob")
    ["username"; "friendly_name"] alice = false /\
  name_matches example_runtime (str_lower example_runtime "Bob")
    ["username"; "friendly_name"] bob = true /\
  user_id_of example_runtime bob = Ok 12 /\
  resolve_user_id example_runtime api_users "Bob" = Ok 12.
Proof.
  assert (H1 : api_users "get_users" [] = Ok (VList [VDict alice; VDict bob]))
    by reflexivity.
  assert (H2 : name_matches example_runtime (str_lower example_runtime "Bob")
                 ["username"; "friendly_name"] alice = false) by (vm_compute; reflexivity).
  assert (H3 : name_matches example_runtime (str_lower example_runtime "Bob")
                 ["username"; "friendly_name"] bob = true) by (vm_compute; reflexivity).
  assert (H4 : user_id_of example_runtime bob = Ok 12) by (vm_compute; reflexivity).
  repeat (split; [assumption|]).
  apply (resolve_user_primary_first example_runtime api_users "Bob"
           (VList [VDict alice; VDict bob]) [VDict alice] [] bob 12 H1 eq_refl);
    [|exact H3 | exact H4].
  constructor; [|constructor]. exists alice. split; [reflexivity | exact H2].
Defined.

Lemma resolve_user_not_found_witness :
  resolve_user_id example_runtime api_users "dave" = Raise.
Proof.
  apply (resolve_user_not_found example_runtime api_users "dave").
  - right. exists (VList [VDict alice; VDict bob]), [VDict alice; VDict bob].
    split; [reflexivity|]. split; [reflexivity|].
    repeat constructor; eexists; (split; [reflexivity | vm_compute; reflexivity]).
  - right. eexists. eexists. split; [reflexivity|]. split; [reflexivity|].
    repeat constructor; eexists; (split; [reflexivity | vm_compute; reflexivity]).
Defined.

Lemma fetch_history_complete_witness :
  (length long_history < 2 * 1000)%nat /\
  fetch_history (api_history long_history) 2 7 "episode" = Some (Ok long_history).
Proof.
  assert (Hlen : (length long_history < 2 * 1000)%nat) by (vm_compute; lia).
  split; [exact Hlen|].
  apply (fetch_history_complete (api_history long_history) long_history 7 "episode" 2);
    [left; reflexivity | | exact Hlen].
  intros s. eexists. split.
  - unfold api_history, history_params. cbn [assoc_lookup]. simpl.
    rewrite Nat2Z.id. reflexivity.
  - unfold page_rows. rewrite lookup_singleton_eq. reflexivity.
Defined.

Lemma fmt_duration_parts_witness :
  float_trunc 3725.5 = Some 3725 /\ fmt_duration 3725.5 = Ok "1h 2m 5s".
Proof.
  assert (H : float_trunc 3725.5 = Some 3725) by (vm_compute; reflexivity).
  split; [exact H|].
  destruct (fmt_duration_parts 3725.5 3725 H) as (_ & _ & _ & ->).
  vm_compute. reflexivity.
Defined.

Lemma fast_path_first_field_witness :
  count_available_episodes example_runtime api_leafCount "1" = Ok 8.
Proof.
  eapply (fast_path_first_field example_runtime api_leafCount "1" _
            ["leaf_count"] ["episode_count"] "leafCount" 8).
  - reflexivity.
  - reflexivity.
  - repeat constructor.
  - vm_compute. discriminate.
  - vm_compute. reflexivity.
Defined.

Lemma count_available_full_sum_witness :
  season_items api_two_seasons "1" = Ok [season "s1"; VDict ∅; season "s2"] /\
  count_available_episodes example_runtime api_two_seasons "1" = Ok 9.
Proof.
  assert (H : season_items api_two_seasons "1" = Ok [season "s1"; VDict ∅; season "s2"])
    by (vm_compute; reflexivity).
  split; [exact H|].
  apply (count_available_full_sum example_runtime api_two_seasons "1"
           [season "s1"; VDict ∅; season "s2"] [Some 5; None; Some 4]);
    [left; vm_compute; reflexivity | exact H |].
  repeat constructor; vm_compute; reflexivity.
Defined.

(** ** When the series aggregation returns *)

Section SeriesReturns.
Import Series.
Context (py : runtime) (thr : float).

(** Entries whose title is text. *)
Let titled (b : bucket) : Prop := exists s, b_show_title b = VStr s.

Lemma text_title_has_key (r : row) :
  (exists s, show_title_of r = VStr s) -> exists k, bucket_key py r = Ok k.
Proof.
  intros [s Hs]. unfold bucket_key. rewrite Hs.
  destruct (str_nonempty (show_key_of py r)); eauto.
Qed.

Lemma series_loop_titled (rows : list row) (st st' : list (string * bucket)) :
  Forall (fun r => exists s, show_title_of r = VStr s) rows ->
  Forall titled st.*2 ->
  fold_rows (series_step py thr) st rows = Ok st' ->
  Forall titled st'.*2.
Proof.
  intros Hrows. revert st. induction Hrows as [|r rows Hr _ IH]; simpl; intros st Hst.
  - intros [= <-]. exact Hst.
  - destruct (series_step py thr st r) as [st1|] eqn:Hstep; simpl; [|discriminate].
    apply IH. unfold series_step in Hstep.
    destruct (bucket_key py r) as [k|]; [|discriminate]. simpl in Hstep.
    injection Hstep as <-. apply assoc_store_Forall; [exact Hst|].
    unfold titled, update_bucket; simpl.
    destruct (assoc_lookup k st) as [b|] eqn:Hl; simpl; [|exact Hr].
    apply assoc_lookup_elem in Hl. rewrite Forall_forall in Hst. apply Hst, Hl.
Qed.

(** X23: [aggregate_series] returns for every list of plays whose titles are
    text (or missing, which gives the stand-in title): no play then lacks a
    grouping key and every row has a title the sort can lower-case. *)
Theorem aggregate_series_returns (rows : list row) :
  Forall (fun r => exists s, show_title_of r = VStr s) rows ->
  exists out, aggregate_series py thr rows = Ok out.
Proof.
  intros Hrows. unfold aggregate_series, series_buckets.
  destruct (proj2 (series_loop_returns py thr rows [])) as [st Hrun].
  { apply (Forall_impl _ _ _ Hrows). intros r. apply text_title_has_key. }
  rewrite Hrun. simpl. apply py_sort_returns, Forall_fmap.
  eapply Forall_impl; [apply (series_loop_titled rows [] st Hrows); [constructor | exact Hrun]|].
  intros b [s Hs]. simpl. unfold lower_title, py_or. rewrite Hs. simpl.
  destruct (str_nonempty s); simpl; eexists; reflexivity.
Qed.

End SeriesReturns.

Lemma aggregate_series_returns_witness :
  Forall (fun r => exists s, Series.show_title_of r = VStr s) two_shows /\
  exists out, Series.aggregate_series example_runtime 85 two_shows = Ok out.
Proof.
  assert (H : Forall (fun r => exists s, Series.show_title_of r = VStr s) two_shows)
    by (repeat constructor; eexists; vm_compute; reflexivity).
  split; [exact H|]. exact (aggregate_series_returns example_runtime 85 two_shows H).
Defined.
